(** * Appointment lifecycle of the garage backend

    A shallow embedding of [AppointmentsService] (appointments.service.ts)
    and of the two controller routes that forward to it, over an explicit
    model of the persisted store.  Every service method is a computation in
    a small state-and-exception monad: an [await]ed call threads the store,
    a [throw] stops the method and keeps the writes made so far, since the
    service wraps nothing in a transaction. *)

From Stdlib Require Import ZArith String List Sorting.Sorted OrdersEx.
From stdpp Require Import base option list gmap strings pretty sorting.

Local Open Scope Z_scope.
Local Open Scope string_scope.

(** ** Constants *)

(** Modelled from the spec: common/constants/role.constant is not among the
    sources; the spec names the roles [client], [mechanic] and admins. *)
Module ROLE.
Definition CLIENT : string := "client".
Definition MECHANIC : string := "mechanic".
Definition ADMIN : string := "admin".
End ROLE.

(** Modelled from the spec: common/constants/appointment-status.constant is
    not among the sources; the spec enumerates [pending], [accepted],
    [rejected].  The TypeScript type [AppointmentStatus] is the union of the
    three literals, hence an enumeration here. *)
Inductive AppointmentStatus := PENDING | ACCEPTED | REJECTED.

Global Instance AppointmentStatus_eq_dec : EqDecision AppointmentStatus.
Proof. solve_decision. Defined.

(** The string each status literal stands for; the listing compares its
    [status] query string against it. *)
Definition status_literal (s : AppointmentStatus) : string :=
  match s with
  | PENDING => "pending"
  | ACCEPTED => "accepted"
  | REJECTED => "rejected"
  end.

(** Modelled from the spec: common/constants/notification-type.constant is
    not among the sources; one tag per notification the service creates. *)
Inductive NotificationType :=
  | APPOINTMENT_CREATED
  | APPOINTMENT_ACCEPTED
  | APPOINTMENT_REJECTED.

(** ** Entities *)

Module User.
Record t := mk { id : Z; name : string; role : string }.
End User.

Module Vehicle.
Record t := mk { id : Z; clientId : Z; licensePlate : string }.
End Vehicle.

Module Schedule.
Record t := mk {
  id : Z;
  mechanicId : Z;
  date : string;
  availableHours : list string
}.

Definition with_availableHours (hs : list string) (s : t) : t :=
  mk (id s) (mechanicId s) (date s) hs.
End Schedule.

Module Appointment.
(** The persisted columns of an appointment; the primary key is the key
    of the table. *)
Record Columns := mkColumns {
  clientId : Z;
  mechanicId : Z;
  vehicleId : Z;
  scheduleId : Z;
  hour : string;
  date : string;
  description : string;
  status : AppointmentStatus;
  rejectionReason : option string
}.

(** The entity object the ORM hands out: the generated id (absent before
    the first save), the columns, and the relation properties, which are
    filled only when a query asks for them or the code assigns them. *)
Record t := mk {
  id : option Z;
  columns : Columns;
  client : option User.t;
  mechanic : option User.t;
  vehicle : option Vehicle.t;
  schedule : option Schedule.t
}.

Definition set_status (st : AppointmentStatus) (a : t) : t :=
  let c := columns a in
  mk (id a)
     (mkColumns (clientId c) (mechanicId c) (vehicleId c) (scheduleId c)
                (hour c) (date c) (description c) st (rejectionReason c))
     (client a) (mechanic a) (vehicle a) (schedule a).

Definition set_rejectionReason (r : option string) (a : t) : t :=
  let c := columns a in
  mk (id a)
     (mkColumns (clientId c) (mechanicId c) (vehicleId c) (scheduleId c)
                (hour c) (date c) (description c) (status c) r)
     (client a) (mechanic a) (vehicle a) (schedule a).

Definition set_id (i : Z) (a : t) : t :=
  mk (Some i) (columns a) (client a) (mechanic a) (vehicle a) (schedule a).
End Appointment.

Module Notification.
Record t := mk {
  userId : Z;
  type : NotificationType;
  title : string;
  message : string;
  appointmentId : option Z   (* metadata: { appointmentId } *)
}.
End Notification.

(** ** Request bodies *)

Module CreateAppointmentDto.
Record t := mk {
  mechanicId : Z;
  vehicleId : Z;
  scheduleId : Z;
  hour : string;
  date : string;
  description : string
}.
End CreateAppointmentDto.

Module UpdateAppointmentDto.
Record t := mk {
  status : option AppointmentStatus;
  rejectionReason : option string
}.
End UpdateAppointmentDto.

Module RejectAppointmentDto.
Record t := mk { rejectionReason : string }.
End RejectAppointmentDto.

(** ** The store and the exceptions *)

Inductive HttpException :=
  | NotFoundException (msg : string)
  | BadRequestException (msg : string)
  | ForbiddenException (msg : string)
  | TypeError (msg : string).

(** Each write the service performs, in the order it performs them. *)
Inductive Effect :=
  | AppointmentSaved (id : Z) (c : Appointment.Columns)
  | AppointmentDeleted (id : Z)
  | HourRemoved (scheduleId : Z) (hour : string)
  | HourAdded (scheduleId : Z) (hour : string)
  | NotificationCreated (n : Notification.t).

Record State := mkState {
  users : gmap Z User.t;
  vehicles : gmap Z Vehicle.t;
  schedules : gmap Z Schedule.t;
  appointments : gmap Z Appointment.Columns;
  nextAppointmentId : Z;
  notifications : list Notification.t;
  log : list Effect
}.

Inductive Outcome (A : Type) :=
  | Returned (a : A)
  | Thrown (e : HttpException).
Arguments Returned {A} a.
Arguments Thrown {A} e.

(** A method body: from the store to its outcome and the store it leaves. *)
Definition M (A : Type) : Type := State → Outcome A * State.

Definition ret {A} (a : A) : M A := λ s, (Returned a, s).
Definition throw {A} (e : HttpException) : M A := λ s, (Thrown e, s).
Definition bind {A B} (m : M A) (k : A → M B) : M B :=
  λ s, match m s with
       | (Returned a, s') => k a s'
       | (Thrown e, s') => (Thrown e, s')
       end.

Declare Scope method_scope.
Delimit Scope method_scope with method.
Notation "'let*' x := m 'in' k" := (bind m (λ x, k))
  (at level 10, x name, m at level 100, k at level 200) : method_scope.
Notation "m ;;; k" := (bind m (λ _, k))
  (at level 100, k at level 200, right associativity) : method_scope.
Notation "'when' b 'raise' e ;;; k" := (if b then throw e else k)
  (at level 10, b at level 99, e at level 99, k at level 200)
  : method_scope.
Local Open Scope method_scope.

(** JavaScript truthiness of the optional values the service tests with
    [if (x)]: [undefined], the empty string and the number 0 are falsy. *)
Definition truthy_string (x : option string) : bool :=
  match x with
  | Some s => negb (String.eqb s "")
  | None => false
  end.

Definition truthy_number (x : option Z) : bool :=
  match x with
  | Some n => negb (n =? 0)%Z
  | None => false
  end.

(** ** The appointment repository

    The ORM calls the service makes, over the appointment table.  A query
    with [relations] joins the named tables; a relation that was not asked
    for stays unset. *)

Inductive Relation := R_client | R_mechanic | R_vehicle | R_schedule.

Global Instance Relation_eq_dec : EqDecision Relation.
Proof. solve_decision. Defined.

Definition hydrate (s : State) (relations : list Relation)
    (id : Z) (c : Appointment.Columns) : Appointment.t :=
  Appointment.mk (Some id) c
    (if bool_decide (R_client ∈ relations)
     then users s !! Appointment.clientId c else None)
    (if bool_decide (R_mechanic ∈ relations)
     then users s !! Appointment.mechanicId c else None)
    (if bool_decide (R_vehicle ∈ relations)
     then vehicles s !! Appointment.vehicleId c else None)
    (if bool_decide (R_schedule ∈ relations)
     then schedules s !! Appointment.scheduleId c else None).

(** [findOne({ where: { id }, relations })] *)
Definition appointmentRepository_findOne (id : Z) (relations : list Relation)
    : M (option Appointment.t) :=
  λ s, (Returned (hydrate s relations id <$> appointments s !! id), s).

(** [create(fields)]: a fresh entity object, not yet stored. *)
Definition appointmentRepository_create (c : Appointment.Columns)
    : Appointment.t :=
  Appointment.mk None c None None None None.

(** [save(entity)]: an entity without id is inserted under the next
    generated id, an entity with an id overwrites the columns stored under
    it; the entity comes back carrying its id. *)
Definition appointmentRepository_save (a : Appointment.t) : M Appointment.t :=
  λ s,
    let c := Appointment.columns a in
    match Appointment.id a with
    | None =>
        let i := nextAppointmentId s in
        (Returned (Appointment.set_id i a),
         mkState (users s) (vehicles s) (schedules s)
                 (<[i := c]> (appointments s)) (i + 1)
                 (notifications s) (log s ++ [AppointmentSaved i c]))
    | Some i =>
        (Returned a,
         mkState (users s) (vehicles s) (schedules s)
                 (<[i := c]> (appointments s)) (nextAppointmentId s)
                 (notifications s) (log s ++ [AppointmentSaved i c]))
    end.

(** [delete(id)] *)
Definition appointmentRepository_delete (id : Z) : M unit :=
  λ s, (Returned tt,
        mkState (users s) (vehicles s) (schedules s)
                (delete id (appointments s)) (nextAppointmentId s)
                (notifications s) (log s ++ [AppointmentDeleted id])).

(** [FindOptionsWhere<Appointment>]: a property that is set is an equality
    condition, a property left out is no condition. *)
Module Where.
Record t := mk {
  clientId : option Z;
  mechanicId : option Z;
  status : option string;
  date : option string
}.

Definition empty : t := mk None None None None.
Definition set_clientId (x : option Z) (w : t) : t :=
  mk x (mechanicId w) (status w) (date w).
Definition set_mechanicId (x : option Z) (w : t) : t :=
  mk (clientId w) x (status w) (date w).
Definition set_status (x : option string) (w : t) : t :=
  mk (clientId w) (mechanicId w) x (date w).
Definition set_date (x : option string) (w : t) : t :=
  mk (clientId w) (mechanicId w) (status w) x.

Definition holds {A} `{EqDecision A} (cond : option A) (v : A) : bool :=
  match cond with
  | Some x => bool_decide (v = x)
  | None => true
  end.

Definition matches (w : t) (c : Appointment.Columns) : bool :=
  holds (clientId w) (Appointment.clientId c)
  && holds (mechanicId w) (Appointment.mechanicId c)
  && holds (status w) (status_literal (Appointment.status c))
  && holds (date w) (Appointment.date c).
End Where.

(** [order: { date: 'ASC', hour: 'ASC' }]: by date, ties by hour, both in
    the order of their strings. *)
Definition date_hour_cmp (c1 c2 : Appointment.Columns) : comparison :=
  match String.compare (Appointment.date c1) (Appointment.date c2) with
  | Eq => String.compare (Appointment.hour c1) (Appointment.hour c2)
  | r => r
  end.

Definition date_hour_le (r1 r2 : Z * Appointment.Columns) : Prop :=
  date_hour_cmp r1.2 r2.2 ≠ Gt.

Global Instance date_hour_le_dec r1 r2 : Decision (date_hour_le r1 r2).
Proof. unfold date_hour_le. apply _. Defined.

(** [find({ where, relations, order: { date: 'ASC', hour: 'ASC' } })] *)
Definition appointmentRepository_find (w : Where.t)
    (relations : list Relation) : M (list Appointment.t) :=
  λ s,
    let rows := filter (λ r, Where.matches w r.2 = true)
                       (map_to_list (appointments s)) in
    (Returned ((λ r, hydrate s relations r.1 r.2)
                 <$> merge_sort date_hour_le rows), s).

(** ** Collaborating services *)

(** [UsersService.findById] and [UsersService.findByIdOrThrow]
    (users.service.ts). *)
Definition usersService_findById (id : Z) : M (option User.t) :=
  λ s, (Returned (users s !! id), s).

Definition usersService_findByIdOrThrow (id : Z) : M User.t :=
  let* user := usersService_findById id in
  match user with
  | None => throw (NotFoundException
                     ("User with ID " +:+ pretty id +:+ " not found"))
  | Some user => ret user
  end.

(** Modelled from the spec: vehicles.service.ts is not among the sources.
    The spec lists a missing vehicle under NotFound, and the owner guard
    (vehicle-owner.guard.ts) catches that very exception from [findOne]. *)
Definition vehiclesService_findOne (id : Z) : M Vehicle.t :=
  λ s, match vehicles s !! id with
       | None => (Thrown (NotFoundException "Vehicle not found"), s)
       | Some v => (Returned v, s)
       end.

(** Modelled from the spec: schedules.service.ts is not among the sources.
    [getScheduleById(id)]: fails with NotFound if absent; returns the full
    slot list for availability checks. *)
Definition schedulesService_getScheduleById (id : Z) : M Schedule.t :=
  λ s, match schedules s !! id with
       | None => (Thrown (NotFoundException "Schedule not found"), s)
       | Some sch => (Returned sch, s)
       end.

Definition write_schedule (id : Z) (sch : Schedule.t) (e : Effect)
    (s : State) : State :=
  mkState (users s) (vehicles s) (<[id := sch]> (schedules s))
          (appointments s) (nextAppointmentId s) (notifications s)
          (log s ++ [e]).

(** Modelled from the spec: schedules.service.ts is not among the sources.
    [removeHourFromSchedule(scheduleId, hour)]: fails with NotFound if the
    schedule does not exist; removes [hour] from the schedule's available
    set if present. *)
Definition schedulesService_removeHourFromSchedule (scheduleId : Z)
    (hour : string) : M unit :=
  λ s, match schedules s !! scheduleId with
       | None => (Thrown (NotFoundException "Schedule not found"), s)
       | Some sch =>
           let hs := filter (λ h, h ≠ hour) (Schedule.availableHours sch) in
           (Returned tt,
            write_schedule scheduleId (Schedule.with_availableHours hs sch)
                           (HourRemoved scheduleId hour) s)
       end.

(** Modelled from the spec: schedules.service.ts is not among the sources.
    [addHourToSchedule(scheduleId, hour)]: fails with NotFound if schedule
    missing; re-inserts [hour] into the available set (must not duplicate
    if already present). *)
Definition schedulesService_addHourToSchedule (scheduleId : Z)
    (hour : string) : M unit :=
  λ s, match schedules s !! scheduleId with
       | None => (Thrown (NotFoundException "Schedule not found"), s)
       | Some sch =>
           let hs := Schedule.availableHours sch in
           let hs' := if bool_decide (hour ∈ hs) then hs else (hs ++ [hour])%list in
           (Returned tt,
            write_schedule scheduleId (Schedule.with_availableHours hs' sch)
                           (HourAdded scheduleId hour) s)
       end.

(** Modelled from the spec: notifications.service.ts is not among the
    sources.  The notification emitter receives the request and queues it;
    its delivery does not take part in the caller's outcome. *)
Definition notificationsService_createNotification (n : Notification.t)
    : M unit :=
  λ s, (Returned tt,
        mkState (users s) (vehicles s) (schedules s) (appointments s)
                (nextAppointmentId s) (notifications s ++ [n])
                (log s ++ [NotificationCreated n])).

(** [Array.prototype.includes] on the hour strings. *)
Definition includes (hs : list string) (h : string) : bool :=
  bool_decide (h ∈ hs).

(** ** AppointmentsService *)

Definition all_relations : list Relation :=
  [R_client; R_mechanic; R_vehicle; R_schedule].

Definition createAppointment (clientId : Z) (dto : CreateAppointmentDto.t)
    : M Appointment.t :=
  let mechanicId := CreateAppointmentDto.mechanicId dto in
  let vehicleId := CreateAppointmentDto.vehicleId dto in
  let scheduleId := CreateAppointmentDto.scheduleId dto in
  let hour := CreateAppointmentDto.hour dto in
  let date := CreateAppointmentDto.date dto in
  let description := CreateAppointmentDto.description dto in
  let* mechanic := usersService_findByIdOrThrow mechanicId in
  when bool_decide (User.role mechanic ≠ ROLE.MECHANIC)
  raise BadRequestException "El usuario seleccionado no es un mecánico" ;;;
  let* vehicle := vehiclesService_findOne vehicleId in
  when bool_decide (Vehicle.clientId vehicle ≠ clientId)
  raise ForbiddenException
          "No puedes agendar citas para vehículos que no te pertenecen" ;;;
  let* client := usersService_findByIdOrThrow clientId in
  let* schedule := schedulesService_getScheduleById scheduleId in
  when negb (includes (Schedule.availableHours schedule) hour)
  raise BadRequestException "La hora seleccionada no está disponible" ;;;
  let appointment :=
    appointmentRepository_create
      (Appointment.mkColumns clientId mechanicId vehicleId scheduleId
                             hour date description PENDING None) in
  let* savedAppointment := appointmentRepository_save appointment in
  schedulesService_removeHourFromSchedule scheduleId hour ;;;
  (* Notify Mechanic *)
  notificationsService_createNotification
    (Notification.mk mechanicId APPOINTMENT_CREATED "Nueva Cita Agendada"
       ("El cliente ha agendado una cita para el vehículo "
          +:+ Vehicle.licensePlate vehicle +:+ " el " +:+ date
          +:+ " a las " +:+ hour)
       (Appointment.id savedAppointment)) ;;;
  (* Populate relations for response *)
  ret (Appointment.mk (Appointment.id savedAppointment)
                      (Appointment.columns savedAppointment)
                      (Some client) (Some mechanic) (Some vehicle)
                      (Some schedule)).

Definition findAll (userId : Z) (userRole : string) (status : option string)
    (clientId mechanicId : option Z) (date : option string)
    : M (list Appointment.t) :=
  let where_ := Where.empty in
  let where_ :=
    if bool_decide (userRole = ROLE.CLIENT)
    then Where.set_clientId (Some userId) where_
    else if bool_decide (userRole = ROLE.MECHANIC)
         then Where.set_mechanicId (Some userId) where_
         else where_ in
  let where_ :=
    if truthy_number clientId && bool_decide (userRole ≠ ROLE.CLIENT)
    then Where.set_clientId clientId where_ else where_ in
  let where_ :=
    if truthy_number mechanicId && bool_decide (userRole ≠ ROLE.MECHANIC)
    then Where.set_mechanicId mechanicId where_ else where_ in
  let where_ :=
    if truthy_string status then Where.set_status status where_
    else where_ in
  let where_ :=
    if truthy_string date then Where.set_date date where_ else where_ in
  appointmentRepository_find where_ [R_client; R_mechanic; R_vehicle].

Definition getAppointmentsByClient (clientId : Z) : M (list Appointment.t) :=
  appointmentRepository_find
    (Where.set_clientId (Some clientId) Where.empty)
    [R_mechanic; R_vehicle].

Definition getAppointmentsByMechanic (mechanicId : Z)
    : M (list Appointment.t) :=
  appointmentRepository_find
    (Where.set_mechanicId (Some mechanicId) Where.empty)
    [R_client; R_vehicle].

(** The tail shared by [updateAppointment] and [updateAppointmentStatus]:
    the two bodies are the same from the destructuring of the body on.
    Every status literal is a non-empty string, so [if (status)] holds
    exactly when the property is set. *)
Definition apply_update (appointment : Appointment.t)
    (updateAppointmentDto : UpdateAppointmentDto.t) : M Appointment.t :=
  let status := UpdateAppointmentDto.status updateAppointmentDto in
  let rejectionReason :=
    UpdateAppointmentDto.rejectionReason updateAppointmentDto in
  when bool_decide (status = Some REJECTED)
       && negb (truthy_string rejectionReason)
  raise BadRequestException
          "Rejection reason is required when rejecting an appointment" ;;;
  let appointment :=
    match status with
    | Some status => Appointment.set_status status appointment
    | None => appointment
    end in
  let appointment :=
    if truthy_string rejectionReason
    then Appointment.set_rejectionReason rejectionReason appointment
    else appointment in
  appointmentRepository_save appointment.

Definition updateAppointment (appointmentId userId : Z) (userRole : string)
    (updateAppointmentDto : UpdateAppointmentDto.t) : M Appointment.t :=
  let* found := appointmentRepository_findOne appointmentId all_relations in
  match found with
  | None => throw (NotFoundException "Cita no encontrada")
  | Some appointment =>
      let c := Appointment.columns appointment in
      when bool_decide (userRole = ROLE.MECHANIC)
           && bool_decide (Appointment.mechanicId c ≠ userId)
      raise ForbiddenException
              "No puedes modificar citas que no te han sido asignadas" ;;;
      when bool_decide (userRole = ROLE.CLIENT)
           && bool_decide (Appointment.clientId c ≠ userId)
      raise ForbiddenException
              "No puedes modificar citas que no te pertenecen" ;;;
      when bool_decide (Appointment.status c ≠ PENDING)
      raise BadRequestException
              "Only pending appointments can be modified" ;;;
      apply_update appointment updateAppointmentDto
  end.

Definition updateAppointmentStatus (appointmentId mechanicId : Z)
    (updateAppointmentDto : UpdateAppointmentDto.t) : M Appointment.t :=
  let* found := appointmentRepository_findOne appointmentId all_relations in
  match found with
  | None => throw (NotFoundException "Cita no encontrada")
  | Some appointment =>
      let c := Appointment.columns appointment in
      when bool_decide (Appointment.mechanicId c ≠ mechanicId)
      raise ForbiddenException
              "No puedes modificar citas que no te han sido asignadas" ;;;
      when bool_decide (Appointment.status c ≠ PENDING)
      raise BadRequestException
              "Only pending appointments can be modified" ;;;
      apply_update appointment updateAppointmentDto
  end.

Definition acceptAppointment (appointmentId mechanicId : Z)
    : M Appointment.t :=
  let* found := appointmentRepository_findOne appointmentId all_relations in
  match found with
  | None => throw (NotFoundException "Appointment not found")
  | Some appointment =>
      let c := Appointment.columns appointment in
      when bool_decide (Appointment.mechanicId c ≠ mechanicId)
      raise ForbiddenException
              "You cannot modify appointments that have not been assigned to you" ;;;
      when bool_decide (Appointment.status c ≠ PENDING)
      raise BadRequestException
              "Only pending appointments can be accepted" ;;;
      let appointment := Appointment.set_status ACCEPTED appointment in
      let* savedAppointment := appointmentRepository_save appointment in
      (* Notify Client; a missing vehicle row leaves [appointment.vehicle]
         null and the property read throws *)
      match Appointment.vehicle appointment with
      | None => throw (TypeError "Cannot read properties of null")
      | Some vehicle =>
          notificationsService_createNotification
            (Notification.mk
               (Appointment.clientId (Appointment.columns appointment))
               APPOINTMENT_ACCEPTED "Cita Aceptada"
               ("Tu cita para el vehículo " +:+ Vehicle.licensePlate vehicle
                  +:+ " ha sido aceptada por el mecánico")
               (Appointment.id savedAppointment)) ;;;
          ret savedAppointment
      end
  end.

Definition rejectAppointment (appointmentId mechanicId : Z)
    (rejectAppointmentDto : RejectAppointmentDto.t) : M Appointment.t :=
  let* found := appointmentRepository_findOne appointmentId all_relations in
  match found with
  | None => throw (NotFoundException "Cita no encontrada")
  | Some appointment =>
      let c := Appointment.columns appointment in
      when bool_decide (Appointment.mechanicId c ≠ mechanicId)
      raise ForbiddenException
              "No puedes modificar citas que no te han sido asignadas" ;;;
      when bool_decide (Appointment.status c ≠ PENDING)
      raise BadRequestException
              "Solo las citas pendientes pueden ser rechazadas" ;;;
      let reason := RejectAppointmentDto.rejectionReason rejectAppointmentDto in
      let appointment := Appointment.set_status REJECTED appointment in
      let appointment :=
        Appointment.set_rejectionReason (Some reason) appointment in
      let* savedAppointment := appointmentRepository_save appointment in
      let c := Appointment.columns appointment in
      schedulesService_addHourToSchedule
        (Appointment.scheduleId c) (Appointment.hour c) ;;;
      (* Notify Client *)
      notificationsService_createNotification
        (Notification.mk (Appointment.clientId c) APPOINTMENT_REJECTED
           "Cita Rechazada"
           ("Tu cita ha sido rechazada. Razón: " +:+ reason)
           (Appointment.id savedAppointment)) ;;;
      ret savedAppointment
  end.

Definition getAppointmentById (id : Z) : M Appointment.t :=
  let* found := appointmentRepository_findOne id all_relations in
  match found with
  | None => throw (NotFoundException "Cita no encontrada")
  | Some appointment => ret appointment
  end.

Definition deleteAppointment (id userId : Z) : M unit :=
  let* appointment := getAppointmentById id in
  let c := Appointment.columns appointment in
  when bool_decide (Appointment.clientId c ≠ userId)
  raise ForbiddenException
          "No puedes cancelar citas que no te pertenecen" ;;;
  when bool_decide (Appointment.status c ≠ PENDING)
       && bool_decide (Appointment.status c ≠ ACCEPTED)
  raise BadRequestException
          "Solo las citas pendientes o aceptadas pueden ser canceladas" ;;;
  appointmentRepository_delete id ;;;
  schedulesService_addHourToSchedule
    (Appointment.scheduleId c) (Appointment.hour c).

(** ** AppointmentsController

    The routes of appointments.controller.ts that the properties below are
    about.  The whole controller sits behind [AuthGuard('jwt')], which
    attaches the token's payload to the request. *)

Module JwtPayload.
Record t := mk { sub : Z; email : string; role : string }.
End JwtPayload.

Record ApiResponse (T : Type) := mkApiResponse {
  success : bool;
  message : string;
  data : option T
}.
Arguments mkApiResponse {T} _ _ _.
Arguments success {T} _.
Arguments message {T} _.
Arguments data {T} _.

Section Controller.
(** The response shape and its projection live in common/index, which is
    not among the sources; the routes are stated over any projection. *)
Context {SafeAppointmentWithSimpleClient : Type}.
Variable toSafeAppointmentWithSimpleClient :
  Appointment.t → SafeAppointmentWithSimpleClient.

(** [@Get(':id')]: the handler is handed the path parameter only. *)
Definition controller_getAppointment (id : Z)
    : M (ApiResponse SafeAppointmentWithSimpleClient) :=
  let* appointment := getAppointmentById id in
  let data := toSafeAppointmentWithSimpleClient appointment in
  ret (mkApiResponse true "Cita obtenida exitosamente" (Some data)).

(** The route as the framework runs it for a request that passed the
    guard: the payload is on the request, the handler does not read it. *)
Definition GET_appointments_id (user : JwtPayload.t) (id : Z)
    : M (ApiResponse SafeAppointmentWithSimpleClient) :=
  controller_getAppointment id.

(** [@Patch(':id')] *)
Definition controller_updateAppointment (id : Z) (user : JwtPayload.t)
    (updateAppointmentDto : UpdateAppointmentDto.t)
    : M (ApiResponse SafeAppointmentWithSimpleClient) :=
  let* appointment :=
    updateAppointment id (JwtPayload.sub user) (JwtPayload.role user)
                      updateAppointmentDto in
  let data := toSafeAppointmentWithSimpleClient appointment in
  ret (mkApiResponse true "Cita actualizada exitosamente" (Some data)).
End Controller.

(** ** A small garage to run the methods on *)

Module Sample.
Definition ana : User.t := User.mk 10 "Ana" ROLE.CLIENT.
Definition mario : User.t := User.mk 20 "Mario" ROLE.MECHANIC.
Definition root : User.t := User.mk 30 "Root" ROLE.ADMIN.
Definition luis : User.t := User.mk 11 "Luis" ROLE.CLIENT.
Definition car : Vehicle.t := Vehicle.mk 7 10 "ABCD12".
Definition thursday : Schedule.t :=
  Schedule.mk 5 20 "2026-01-22" ["09:00"; "10:00"; "11:00"].

Definition garage : State :=
  mkState (list_to_map [(10, ana); (11, luis); (20, mario); (30, root)])
          {[ 7 := car ]} {[ 5 := thursday ]} ∅ 1 [] [].

Definition booking : CreateAppointmentDto.t :=
  CreateAppointmentDto.mk 20 7 5 "10:00" "2026-01-22" "Cambio de aceite".

(** The store after Ana booked Mario's 10:00 slot. *)
Definition booked : State := (createAppointment 10 booking garage).2.
End Sample.

(** ** Vocabulary of the properties *)

(** The values a booking request works with, once its lookups succeeded. *)
Definition booked_columns (clientId : Z) (dto : CreateAppointmentDto.t)
    : Appointment.Columns :=
  Appointment.mkColumns clientId
    (CreateAppointmentDto.mechanicId dto) (CreateAppointmentDto.vehicleId dto)
    (CreateAppointmentDto.scheduleId dto) (CreateAppointmentDto.hour dto)
    (CreateAppointmentDto.date dto) (CreateAppointmentDto.description dto)
    PENDING None.

Definition booking_notification (dto : CreateAppointmentDto.t)
    (vehicle : Vehicle.t) (id : Z) : Notification.t :=
  Notification.mk (CreateAppointmentDto.mechanicId dto) APPOINTMENT_CREATED
    "Nueva Cita Agendada"
    ("El cliente ha agendado una cita para el vehículo "
       +:+ Vehicle.licensePlate vehicle +:+ " el "
       +:+ CreateAppointmentDto.date dto
       +:+ " a las " +:+ CreateAppointmentDto.hour dto)
    (Some id).

(** All the lookups and checks of a booking pass. *)
Record bookable (s : State) (clientId : Z) (dto : CreateAppointmentDto.t)
    (mechanic : User.t) (vehicle : Vehicle.t) (client : User.t)
    (schedule : Schedule.t) : Prop := {
  bookable_mechanic :
    users s !! CreateAppointmentDto.mechanicId dto = Some mechanic;
  bookable_role : User.role mechanic = ROLE.MECHANIC;
  bookable_vehicle :
    vehicles s !! CreateAppointmentDto.vehicleId dto = Some vehicle;
  bookable_owner : Vehicle.clientId vehicle = clientId;
  bookable_client : users s !! clientId = Some client;
  bookable_schedule :
    schedules s !! CreateAppointmentDto.scheduleId dto = Some schedule;
  bookable_hour :
    CreateAppointmentDto.hour dto ∈ Schedule.availableHours schedule
}.

(** The store a successful booking leaves. *)
Definition after_booking (s : State) (clientId : Z)
    (dto : CreateAppointmentDto.t) (vehicle : Vehicle.t)
    (schedule : Schedule.t) : State :=
  let i := nextAppointmentId s in
  let c := booked_columns clientId dto in
  let sid := CreateAppointmentDto.scheduleId dto in
  let h := CreateAppointmentDto.hour dto in
  let n := booking_notification dto vehicle i in
  mkState (users s) (vehicles s)
    (<[sid := Schedule.with_availableHours
                (filter (λ x, x ≠ h) (Schedule.availableHours schedule))
                schedule]> (schedules s))
    (<[i := c]> (appointments s)) (i + 1)
    (notifications s ++ [n])
    (((log s ++ [AppointmentSaved i c]) ++ [HourRemoved sid h])
       ++ [NotificationCreated n]).

(** What a booking throws, by the first check that fails. *)
Definition booking_failure (s : State) (clientId : Z)
    (dto : CreateAppointmentDto.t) : option HttpException :=
  match users s !! CreateAppointmentDto.mechanicId dto with
  | None =>
      Some (NotFoundException
              ("User with ID " +:+ pretty (CreateAppointmentDto.mechanicId dto)
                 +:+ " not found"))
  | Some mechanic =>
      if bool_decide (User.role mechanic ≠ ROLE.MECHANIC)
      then Some (BadRequestException
                   "El usuario seleccionado no es un mecánico")
      else
        match vehicles s !! CreateAppointmentDto.vehicleId dto with
        | None => Some (NotFoundException "Vehicle not found")
        | Some vehicle =>
            if bool_decide (Vehicle.clientId vehicle ≠ clientId)
            then Some (ForbiddenException
                   "No puedes agendar citas para vehículos que no te pertenecen")
            else
              match users s !! clientId with
              | None =>
                  Some (NotFoundException
                          ("User with ID " +:+ pretty clientId
                             +:+ " not found"))
              | Some _ =>
                  match schedules s !! CreateAppointmentDto.scheduleId dto with
                  | None => Some (NotFoundException "Schedule not found")
                  | Some schedule =>
                      if bool_decide (CreateAppointmentDto.hour dto
                                        ∈ Schedule.availableHours schedule)
                      then None
                      else Some (BadRequestException
                                   "La hora seleccionada no está disponible")
                  end
              end
        end
  end.

(** The columns a status update writes: the requested status if one is
    given, the requested reason if it is a non-empty string. *)
Definition updated_columns (c : Appointment.Columns)
    (dto : UpdateAppointmentDto.t) : Appointment.Columns :=
  Appointment.mkColumns
    (Appointment.clientId c) (Appointment.mechanicId c)
    (Appointment.vehicleId c) (Appointment.scheduleId c)
    (Appointment.hour c) (Appointment.date c) (Appointment.description c)
    (default (Appointment.status c) (UpdateAppointmentDto.status dto))
    (if truthy_string (UpdateAppointmentDto.rejectionReason dto)
     then UpdateAppointmentDto.rejectionReason dto
     else Appointment.rejectionReason c).

(** The store after the columns stored under [id] were overwritten. *)
Definition store_columns (id : Z) (c : Appointment.Columns) (s : State)
    : State :=
  mkState (users s) (vehicles s) (schedules s) (<[id := c]> (appointments s))
          (nextAppointmentId s) (notifications s)
          (log s ++ [AppointmentSaved id c]).

(** ** The service as a state machine *)

(** A call of one of the service's methods. *)
Inductive Request :=
  | CreateAppointment (clientId : Z) (dto : CreateAppointmentDto.t)
  | FindAll (userId : Z) (userRole : string) (status : option string)
      (clientId mechanicId : option Z) (date : option string)
  | GetAppointmentsByClient (clientId : Z)
  | GetAppointmentsByMechanic (mechanicId : Z)
  | UpdateAppointment (appointmentId userId : Z) (userRole : string)
      (dto : UpdateAppointmentDto.t)
  | UpdateAppointmentStatus (appointmentId mechanicId : Z)
      (dto : UpdateAppointmentDto.t)
  | AcceptAppointment (appointmentId mechanicId : Z)
  | RejectAppointment (appointmentId mechanicId : Z)
      (dto : RejectAppointmentDto.t)
  | GetAppointmentById (id : Z)
  | DeleteAppointment (id userId : Z).

(** The store a call leaves, whether it returns or throws. *)
Definition handle (req : Request) (s : State) : State :=
  match req with
  | CreateAppointment clientId dto => (createAppointment clientId dto s).2
  | FindAll userId userRole status clientId mechanicId date =>
      (findAll userId userRole status clientId mechanicId date s).2
  | GetAppointmentsByClient clientId => (getAppointmentsByClient clientId s).2
  | GetAppointmentsByMechanic mechanicId =>
      (getAppointmentsByMechanic mechanicId s).2
  | UpdateAppointment appointmentId userId userRole dto =>
      (updateAppointment appointmentId userId userRole dto s).2
  | UpdateAppointmentStatus appointmentId mechanicId dto =>
      (updateAppointmentStatus appointmentId mechanicId dto s).2
  | AcceptAppointment appointmentId mechanicId =>
      (acceptAppointment appointmentId mechanicId s).2
  | RejectAppointment appointmentId mechanicId dto =>
      (rejectAppointment appointmentId mechanicId dto s).2
  | GetAppointmentById id => (getAppointmentById id s).2
  | DeleteAppointment id userId => (deleteAppointment id userId s).2
  end.

(** The store after a sequence of calls, oldest first. *)
Definition serve (history : list Request) (s : State) : State :=
  foldl (λ s req, handle req s) s history.

Inductive Path := Booking | Reading | StatusUpdate | Cancellation.

Definition path (req : Request) : Path :=
  match req with
  | CreateAppointment _ _ => Booking
  | FindAll _ _ _ _ _ _ | GetAppointmentsByClient _
  | GetAppointmentsByMechanic _ | GetAppointmentById _ => Reading
  | UpdateAppointment _ _ _ _ | UpdateAppointmentStatus _ _ _
  | AcceptAppointment _ _ | RejectAppointment _ _ _ => StatusUpdate
  | DeleteAppointment _ _ => Cancellation
  end.

Definition status_at (s : State) (id : Z) : option AppointmentStatus :=
  Appointment.status <$> appointments s !! id.

(** Generated ids are fresh: every stored id is below the next one. *)
Definition fresh_ids (s : State) : Prop :=
  map_Forall (λ id _, id < nextAppointmentId s) (appointments s).

(** What one call can do to the appointment table. *)
Inductive moves (s s' : State) : Path → Prop :=
  | moves_nothing p :
      appointments s' = appointments s →
      nextAppointmentId s' = nextAppointmentId s →
      moves s s' p
  | moves_book c :
      Appointment.status c = PENDING →
      appointments s' = <[nextAppointmentId s := c]> (appointments s) →
      nextAppointmentId s' = nextAppointmentId s + 1 →
      moves s s' Booking
  | moves_update id c c' :
      appointments s !! id = Some c →
      Appointment.status c = PENDING →
      appointments s' = <[id := c']> (appointments s) →
      nextAppointmentId s' = nextAppointmentId s →
      moves s s' StatusUpdate
  | moves_cancel id c :
      appointments s !! id = Some c →
      Appointment.status c ≠ REJECTED →
      appointments s' = delete id (appointments s) →
      nextAppointmentId s' = nextAppointmentId s →
      moves s s' Cancellation.

(** ** Vocabulary of the listing *)

(** The where clause [findAll] ends up with. *)
Definition scope_where (userId : Z) (userRole : string)
    (status : option string) (clientId mechanicId : option Z)
    (date : option string) : Where.t :=
  Where.mk
    (if bool_decide (userRole = ROLE.CLIENT) then Some userId
     else if truthy_number clientId then clientId else None)
    (if bool_decide (userRole = ROLE.MECHANIC) then Some userId
     else if truthy_number mechanicId then mechanicId else None)
    (if truthy_string status then status else None)
    (if truthy_string date then date else None).

(** Date ascending, then hour ascending, on the strings as stored. *)
Definition by_date_then_hour (a b : Appointment.t) : Prop :=
  let ca := Appointment.columns a in
  let cb := Appointment.columns b in
  String.compare (Appointment.date ca) (Appointment.date cb) = Lt
  ∨ (Appointment.date ca = Appointment.date cb
     ∧ String.compare (Appointment.hour ca) (Appointment.hour cb) ≠ Gt).

(** The relations a listing joins. *)
Definition listing_relations : list Relation :=
  [R_client; R_mechanic; R_vehicle].

(** The restriction the requester's role and the id filters put on a
    listed appointment: the role pins its own field to the requester, and
    an id filter that is supplied (truthy) applies to a field the role
    leaves open. *)
Definition in_scope (userId : Z) (userRole : string)
    (clientId mechanicId : option Z) (c : Appointment.Columns) : Prop :=
  (userRole = ROLE.CLIENT → Appointment.clientId c = userId)
  ∧ (userRole = ROLE.MECHANIC → Appointment.mechanicId c = userId)
  ∧ (userRole ≠ ROLE.CLIENT → ∀ x, clientId = Some x → x ≠ 0 →
       Appointment.clientId c = x)
  ∧ (userRole ≠ ROLE.MECHANIC → ∀ x, mechanicId = Some x → x ≠ 0 →
       Appointment.mechanicId c = x).

(** ** Proof automation *)

(** Splits on the guards of a method body until a write or a throw is
    reached. *)
Ltac split_guards :=
  repeat match goal with
         | |- context [if ?b then throw _ else _] => destruct b eqn:?
         end.


(** * Beyond the stated claims: further vocabulary *)

(** The columns of an appointment once its status was decided. *)
Definition decided_columns (st : AppointmentStatus) (r : option string)
    (c : Appointment.Columns) : Appointment.Columns :=
  Appointment.mkColumns
    (Appointment.clientId c) (Appointment.mechanicId c)
    (Appointment.vehicleId c) (Appointment.scheduleId c)
    (Appointment.hour c) (Appointment.date c) (Appointment.description c)
    st r.

(** The notification [acceptAppointment] creates. *)
Definition accepted_notification (c : Appointment.Columns)
    (vehicle : Vehicle.t) (id : Z) : Notification.t :=
  Notification.mk (Appointment.clientId c) APPOINTMENT_ACCEPTED
    "Cita Aceptada"
    ("Tu cita para el vehículo " +:+ Vehicle.licensePlate vehicle
       +:+ " ha sido aceptada por el mecánico")
    (Some id).

(** The notification [rejectAppointment] creates. *)
Definition rejected_notification (c : Appointment.Columns)
    (reason : string) (id : Z) : Notification.t :=
  Notification.mk (Appointment.clientId c) APPOINTMENT_REJECTED
    "Cita Rechazada"
    ("Tu cita ha sido rechazada. Razón: " +:+ reason)
    (Some id).

(** The available hours of a schedule of the store, if it exists. *)
Definition hours_at (s : State) (scheduleId : Z) : option (list string) :=
  Schedule.availableHours <$> schedules s !! scheduleId.

(** What a listing shows of each appointment, relations apart. *)
Definition row_of (a : Appointment.t) : option Z * Appointment.Columns :=
  (Appointment.id a, Appointment.columns a).

(** ** What a call does to the store as a whole *)

(** A status update keeps what the appointment refers to. *)
Definition same_slot (c c' : Appointment.Columns) : Prop :=
  Appointment.clientId c' = Appointment.clientId c
  ∧ Appointment.mechanicId c' = Appointment.mechanicId c
  ∧ Appointment.vehicleId c' = Appointment.vehicleId c
  ∧ Appointment.scheduleId c' = Appointment.scheduleId c
  ∧ Appointment.hour c' = Appointment.hour c
  ∧ Appointment.date c' = Appointment.date c.

(** The hour [h] is put back into schedule [sid], if that schedule exists. *)
Definition release (s s' : State) (sid : Z) (h : string) : Prop :=
  (schedules s !! sid = None ∧ schedules s' = schedules s)
  ∨ ∃ sch sch',
      schedules s !! sid = Some sch
      ∧ schedules s' = <[sid := sch']> (schedules s)
      ∧ ∀ x, x ∈ Schedule.availableHours sch'
             ↔ x ∈ Schedule.availableHours sch ∨ x = h.

(** The five things a call can do to appointments and schedules. *)
Inductive touches (s s' : State) : Prop :=
  | touches_nothing :
      appointments s' = appointments s →
      schedules s' = schedules s →
      touches s s'
  | touches_book clientId dto mechanic vehicle client sch sch' :
      bookable s clientId dto mechanic vehicle client sch →
      appointments s'
      = <[nextAppointmentId s := booked_columns clientId dto]>
          (appointments s) →
      schedules s'
      = <[CreateAppointmentDto.scheduleId dto := sch']> (schedules s) →
      (∀ x, x ∈ Schedule.availableHours sch'
            ↔ x ∈ Schedule.availableHours sch
              ∧ x ≠ CreateAppointmentDto.hour dto) →
      touches s s'
  | touches_update id c c' :
      appointments s !! id = Some c →
      Appointment.status c = PENDING →
      same_slot c c' →
      appointments s' = <[id := c']> (appointments s) →
      schedules s' = schedules s →
      touches s s'
  | touches_reject id c c' :
      appointments s !! id = Some c →
      Appointment.status c = PENDING →
      same_slot c c' →
      Appointment.status c' = REJECTED →
      appointments s' = <[id := c']> (appointments s) →
      release s s' (Appointment.scheduleId c) (Appointment.hour c) →
      touches s s'
  | touches_cancel id c :
      appointments s !! id = Some c →
      Appointment.status c ≠ REJECTED →
      appointments s' = delete id (appointments s) →
      release s s' (Appointment.scheduleId c) (Appointment.hour c) →
      touches s s'.

(** What no call does: users and vehicles are never written, queued
    notifications and logged writes are never taken back, ids never go
    down. *)
Record frame (s s' : State) : Prop := {
  frame_users : users s' = users s;
  frame_vehicles : vehicles s' = vehicles s;
  frame_notifications : notifications s `prefix_of` notifications s';
  frame_log : log s `prefix_of` log s';
  frame_next : (nextAppointmentId s ≤ nextAppointmentId s')%Z
}.

(** No slot is held twice: an appointment that is pending or accepted
    keeps its hour out of its schedule, and no two such appointments hold
    the same hour of the same schedule. *)
Definition slots_held_once (s : State) : Prop :=
  (∀ i c sch,
     appointments s !! i = Some c →
     Appointment.status c ≠ REJECTED →
     schedules s !! Appointment.scheduleId c = Some sch →
     Appointment.hour c ∉ Schedule.availableHours sch)
  ∧ (∀ i j ci cj,
       appointments s !! i = Some ci →
       appointments s !! j = Some cj →
       Appointment.status ci ≠ REJECTED →
       Appointment.status cj ≠ REJECTED →
       Appointment.scheduleId ci = Appointment.scheduleId cj →
       Appointment.hour ci = Appointment.hour cj →
       i = j).

(** Every appointment refers to rows that exist: a mechanic with that
    role, a vehicle of its client, its client and its schedule. *)
Definition references_resolve (s : State) : Prop :=
  ∀ i c,
    appointments s !! i = Some c →
    (∃ m, users s !! Appointment.mechanicId c = Some m
          ∧ User.role m = ROLE.MECHANIC)
    ∧ (∃ v, vehicles s !! Appointment.vehicleId c = Some v
            ∧ Vehicle.clientId v = Appointment.clientId c)
    ∧ is_Some (users s !! Appointment.clientId c)
    ∧ is_Some (schedules s !! Appointment.scheduleId c).

(** ** UsersService (users.service.ts)

    The methods that read or write the columns modelled here: id, name
    and role.  The other columns of a user pass through them unchanged. *)

(** [usersRepository.save(user)]: the row with the user's id is written. *)
Definition usersRepository_save (u : User.t) : M User.t :=
  λ s, (Returned u,
        mkState (<[User.id u := u]> (users s)) (vehicles s) (schedules s)
                (appointments s) (nextAppointmentId s) (notifications s)
                (log s)).

(** [usersRepository.find({ where })]: all users, or those with the
    role. *)
Definition usersRepository_find (role : option string) : M (list User.t) :=
  λ s, (Returned (filter (λ u, Where.holds role (User.role u) = true)
                         (map_to_list (users s)).*2), s).

Definition usersService_save (u : User.t) : M User.t :=
  usersRepository_save u.

Module UpdateUserDto.
Record t := mk { name : option string }.
End UpdateUserDto.

Definition set_name (n : string) (u : User.t) : User.t :=
  User.mk (User.id u) n (User.role u).

Definition set_role (r : string) (u : User.t) : User.t :=
  User.mk (User.id u) (User.name u) r.

Section UsersService.
(** [toSafeUser] lives in common/index, which is not among the sources;
    the methods are stated over any projection. *)
Context {SafeUser : Type}.
Variable toSafeUser : User.t → SafeUser.

Definition usersService_findAdmins : M (list User.t) :=
  usersRepository_find (Some ROLE.ADMIN).

Definition usersService_findAll (roleFilter : option string)
    : M (list SafeUser) :=
  let where_ := if truthy_string roleFilter then roleFilter else None in
  let* users := usersRepository_find where_ in
  ret (toSafeUser <$> users).

Definition usersService_updateProfile (id : Z) (dto : UpdateUserDto.t)
    : M SafeUser :=
  let* user := usersService_findByIdOrThrow id in
  when bool_decide (UpdateUserDto.name dto = Some (User.name user))
  raise BadRequestException
          "New name must be different from the current one" ;;;
  let user :=
    match UpdateUserDto.name dto with
    | Some name => if truthy_string (Some name) then set_name name user
                   else user
    | None => user
    end in
  let* updated := usersService_save user in
  ret (toSafeUser updated).

Definition usersService_updateUserRole (id : Z) (role : string)
    : M SafeUser :=
  let* user := usersService_findByIdOrThrow id in
  let user := set_role role user in
  let* updated := usersService_save user in
  ret (toSafeUser updated).
End UsersService.

Definition usersService_promoteToAdmin (id : Z) : M unit :=
  let* user := usersService_findByIdOrThrow id in
  let user := set_role ROLE.ADMIN user in
  usersService_save user ;;;
  ret tt.

(** Each user row is stored under its own id. *)
Definition users_keyed (s : State) : Prop :=
  map_Forall (λ id u, User.id u = id) (users s).

(** ** VehicleOwnerGuard (guards/vehicle-owner.guard.ts) *)


(** What the guard reads of the request: the payload the JWT guard left
    on it, if any, and the [id] path parameter, if any. *)
Module GuardRequest.
Record t := mk { user : option JwtPayload.t; params_id : option string }.
End GuardRequest.

Section VehicleOwnerGuard.
(** [parseInt(string, 10)] of the language; [None] stands for NaN. *)
Variable parseInt10 : string → option Z.

End VehicleOwnerGuard.

(** ** The Redis provider (redis.provider.ts, the revision with a retry
    strategy)

    The part of [useFactory] that decides on TLS and on the retry delay,
    as a function of the environment. *)

Module RedisEnv.
Record t := mk {
  REDIS_URL : option string;
  REDIS_TLS : option string
}.
End RedisEnv.








(** ** More proof automation *)


(** ** A slot that is gone *)

(** The hour [h] of schedule [sid] is neither on offer nor held by a
    pending or accepted appointment. *)
Definition slot_gone (s : State) (sid : Z) (h : string) : Prop :=
  (∀ sch, schedules s !! sid = Some sch → h ∉ Schedule.availableHours sch)
  ∧ (∀ i c, appointments s !! i = Some c →
            Appointment.status c ≠ REJECTED →
            ¬ (Appointment.scheduleId c = sid ∧ Appointment.hour c = h)).
(** * Properties *)

(** ** Running a method body *)

Lemma bind_returned {A B} (m : M A) (k : A → M B) s a s' :
  m s = (Returned a, s') → bind m k s = k a s'.
Proof. unfold bind. by intros ->. Qed.

Lemma bind_thrown {A B} (m : M A) (k : A → M B) s e s' :
  m s = (Thrown e, s') → bind m k s = (Thrown e, s').
Proof. unfold bind. by intros ->. Qed.

Lemma findByIdOrThrow_found id s u :
  users s !! id = Some u → usersService_findByIdOrThrow id s = (Returned u, s).
Proof.
  intros Hu. unfold usersService_findByIdOrThrow, usersService_findById, bind.
  by rewrite Hu.
Qed.

Lemma findByIdOrThrow_missing id s :
  users s !! id = None →
  usersService_findByIdOrThrow id s
  = (Thrown (NotFoundException
               ("User with ID " +:+ pretty id +:+ " not found")), s).
Proof.
  intros Hu. unfold usersService_findByIdOrThrow, usersService_findById, bind.
  by rewrite Hu.
Qed.

Lemma findOne_at id rels s :
  appointmentRepository_findOne id rels s
  = (Returned (hydrate s rels id <$> appointments s !! id), s).
Proof. reflexivity. Qed.


Lemma createAppointment_success s clientId dto mechanic vehicle client schedule :
  bookable s clientId dto mechanic vehicle client schedule →
  createAppointment clientId dto s
  = (Returned (Appointment.mk (Some (nextAppointmentId s))
                 (booked_columns clientId dto)
                 (Some client) (Some mechanic) (Some vehicle) (Some schedule)),
     after_booking s clientId dto vehicle schedule).
Proof.
  intros [Hm Hr Hv Ho Hc Hs Hh]. unfold createAppointment.
  rewrite (bind_returned _ _ _ _ _ (findByIdOrThrow_found _ _ _ Hm)).
  rewrite bool_decide_eq_false_2 by (by intros ?).
  unfold bind at 1. unfold vehiclesService_findOne at 1. rewrite Hv.
  rewrite bool_decide_eq_false_2 by (by intros ?).
  rewrite (bind_returned _ _ _ _ _ (findByIdOrThrow_found _ _ _ Hc)).
  unfold bind at 1. unfold schedulesService_getScheduleById at 1. rewrite Hs.
  unfold includes. rewrite bool_decide_eq_true_2 by done. cbn [negb].
  unfold bind, appointmentRepository_save, appointmentRepository_create,
    schedulesService_removeHourFromSchedule,
    notificationsService_createNotification, ret, write_schedule.
  cbn. rewrite Hs. reflexivity.
Qed.


Lemma createAppointment_failure s clientId dto e :
  booking_failure s clientId dto = Some e →
  createAppointment clientId dto s = (Thrown e, s).
Proof.
  unfold booking_failure, createAppointment. intros Hf.
  destruct (users s !! CreateAppointmentDto.mechanicId dto) as [m|] eqn:Hm;
    [rewrite (bind_returned _ _ _ _ _ (findByIdOrThrow_found _ _ _ Hm))
    |rewrite (bind_thrown _ _ _ _ _ (findByIdOrThrow_missing _ _ Hm));
     congruence].
  case_bool_decide; [unfold throw; congruence|].
  unfold bind at 1. unfold vehiclesService_findOne at 1.
  destruct (vehicles s !! _) as [v|]; [|congruence].
  case_bool_decide; [unfold throw; congruence|].
  destruct (users s !! clientId) as [c|] eqn:Hc;
    [rewrite (bind_returned _ _ _ _ _ (findByIdOrThrow_found _ _ _ Hc))
    |rewrite (bind_thrown _ _ _ _ _ (findByIdOrThrow_missing _ _ Hc));
     congruence].
  unfold bind at 1. unfold schedulesService_getScheduleById at 1.
  destruct (schedules s !! _) as [sch|]; [|congruence].
  unfold includes. case_bool_decide; [discriminate|].
  cbn [negb]. unfold throw. congruence.
Qed.

Lemma booking_failure_None s clientId dto :
  booking_failure s clientId dto = None →
  ∃ mechanic vehicle client schedule,
    bookable s clientId dto mechanic vehicle client schedule.
Proof.
  unfold booking_failure. intros Hf.
  destruct (users s !! CreateAppointmentDto.mechanicId dto) as [m|] eqn:Hm;
    [|discriminate].
  case_bool_decide as Hr; [discriminate|].
  destruct (vehicles s !! _) as [v|] eqn:Hv; [|discriminate].
  case_bool_decide as Ho; [discriminate|].
  destruct (users s !! clientId) as [c|] eqn:Hc; [|discriminate].
  destruct (schedules s !! _) as [sch|] eqn:Hs; [|discriminate].
  case_bool_decide as Hh; [|discriminate].
  exists m, v, c, sch. by split.
Qed.

(** ** Booking *)

(** C2, as stated, fails: a booking that names a mechanic id no user has
    is answered with NotFound, thrown by [findByIdOrThrow], and with no
    validation error. *)
Lemma createAppointment_missing_mechanic_is_not_found :
  let dto := CreateAppointmentDto.mk 99 7 5 "10:00" "2026-01-22" "Frenos" in
  users Sample.garage !! 99 = None
  ∧ createAppointment 10 dto Sample.garage
    = (Thrown (NotFoundException "User with ID 99 not found"), Sample.garage)
  ∧ ∀ msg, (createAppointment 10 dto Sample.garage).1
           ≠ Thrown (BadRequestException msg).
Proof.
  cbv zeta. split; [reflexivity|].
  assert (createAppointment 10
            (CreateAppointmentDto.mk 99 7 5 "10:00" "2026-01-22" "Frenos")
            Sample.garage
          = (Thrown (NotFoundException "User with ID 99 not found"),
             Sample.garage)) as -> by (vm_compute; reflexivity).
  split; [reflexivity|]. intros msg. discriminate.
Qed.

(** C2, amended: [createAppointment] checks fail-fast and in this order.
    The mechanic is looked up: NotFound if no such user, a validation error
    (BadRequest) if the user's role is not [mechanic].  Then the vehicle:
    NotFound if missing, an authorization error (Forbidden) if its owner is
    not the requesting client.  Then the client and the schedule are looked
    up (NotFound if missing), and last the hour: a validation error if it is
    not among the schedule's available hours.  The first check that fails
    decides the error, later checks are not reached, and the store is as it
    was; when none fails the call returns. *)
Theorem createAppointment_validation_order (s : State) (clientId : Z)
    (dto : CreateAppointmentDto.t) :
  let r := createAppointment clientId dto s in
  match users s !! CreateAppointmentDto.mechanicId dto with
  | None => ∃ msg, r = (Thrown (NotFoundException msg), s)
  | Some mechanic =>
    if decide (User.role mechanic = ROLE.MECHANIC) then
      match vehicles s !! CreateAppointmentDto.vehicleId dto with
      | None => ∃ msg, r = (Thrown (NotFoundException msg), s)
      | Some vehicle =>
        if decide (Vehicle.clientId vehicle = clientId) then
          match users s !! clientId,
                schedules s !! CreateAppointmentDto.scheduleId dto with
          | Some _, Some schedule =>
            if decide (CreateAppointmentDto.hour dto
                         ∈ Schedule.availableHours schedule)
            then ∃ a s', r = (Returned a, s')
            else r = (Thrown (BadRequestException
                                "La hora seleccionada no está disponible"), s)
          | _, _ => ∃ msg, r = (Thrown (NotFoundException msg), s)
          end
        else r = (Thrown (ForbiddenException
               "No puedes agendar citas para vehículos que no te pertenecen"),
                  s)
      end
    else r = (Thrown (BadRequestException
                        "El usuario seleccionado no es un mecánico"), s)
  end.
Proof.
  cbv zeta.
  pose proof (createAppointment_failure s clientId dto) as Hfail.
  pose proof (createAppointment_success s clientId dto) as Hok.
  unfold booking_failure in Hfail.
  destruct (users s !! CreateAppointmentDto.mechanicId dto) as [m|] eqn:Hm;
    [|eauto].
  destruct (decide (User.role m = ROLE.MECHANIC)) as [Hr|Hr];
    [|rewrite bool_decide_eq_true_2 in Hfail by done; eauto].
  rewrite bool_decide_eq_false_2 in Hfail by (by intros ?).
  destruct (vehicles s !! _) as [v|] eqn:Hv; [|eauto].
  destruct (decide (Vehicle.clientId v = clientId)) as [Ho|Ho];
    [|rewrite bool_decide_eq_true_2 in Hfail by done; eauto].
  rewrite bool_decide_eq_false_2 in Hfail by (by intros ?).
  destruct (users s !! clientId) as [c|] eqn:Hc; [|eauto].
  destruct (schedules s !! _) as [sch|] eqn:Hs; [|eauto].
  destruct (decide (_ ∈ _)) as [Hh|Hh].
  - eexists _, _. by apply (Hok m v c sch).
  - rewrite bool_decide_eq_false_2 in Hfail by done. eauto.
Qed.

(** C3: a [createAppointment] call that returns has done, in this order
    and nothing else: saved the new appointment with status [pending] under
    a fresh id, removed the requested hour from the schedule, and queued a
    notification for the mechanic that carries the new appointment's id;
    the appointment it returns holds the resolved client, mechanic, vehicle
    and schedule. *)
Theorem createAppointment_effects_in_order (s s' : State) (clientId : Z)
    (dto : CreateAppointmentDto.t) (a : Appointment.t) :
  createAppointment clientId dto s = (Returned a, s') →
  ∃ mechanic vehicle client schedule,
    users s !! CreateAppointmentDto.mechanicId dto = Some mechanic
    ∧ vehicles s !! CreateAppointmentDto.vehicleId dto = Some vehicle
    ∧ users s !! clientId = Some client
    ∧ schedules s !! CreateAppointmentDto.scheduleId dto = Some schedule
    ∧ let i := nextAppointmentId s in
      let c := booked_columns clientId dto in
      let n := booking_notification dto vehicle i in
      let sid := CreateAppointmentDto.scheduleId dto in
      let h := CreateAppointmentDto.hour dto in
      log s' = (log s ++ [AppointmentSaved i c; HourRemoved sid h;
                          NotificationCreated n])%list
      ∧ appointments s' !! i = Some c
      ∧ Appointment.status c = PENDING
      ∧ (∃ sch', schedules s' !! sid = Some sch'
                 ∧ h ∉ Schedule.availableHours sch')
      ∧ notifications s' = (notifications s ++ [n])%list
      ∧ Notification.userId n = CreateAppointmentDto.mechanicId dto
      ∧ Notification.appointmentId n = Some i
      ∧ a = Appointment.mk (Some i) c (Some client) (Some mechanic)
                           (Some vehicle) (Some schedule).
Proof.
  intros Hrun.
  destruct (booking_failure s clientId dto) as [e|] eqn:Hf.
  { rewrite (createAppointment_failure _ _ _ _ Hf) in Hrun. discriminate. }
  destruct (booking_failure_None _ _ _ Hf) as (m & v & c & sch & Hb).
  rewrite (createAppointment_success _ _ _ _ _ _ _ Hb) in Hrun.
  injection Hrun as <- <-. destruct Hb as [Hm Hr Hv Ho Hc Hs Hh].
  exists m, v, c, sch. repeat split; try done; cbn.
  - by rewrite <- !app_assoc.
  - apply lookup_insert_eq.
  - eexists. split; [apply lookup_insert_eq|]. cbn.
    rewrite list_elem_of_filter. by intros [Hne _].
Qed.

Lemma createAppointment_effects_in_order_witness :
  createAppointment 10 Sample.booking Sample.garage
  = (Returned (Appointment.mk (Some 1) (booked_columns 10 Sample.booking)
                 (Some Sample.ana) (Some Sample.mario) (Some Sample.car)
                 (Some Sample.thursday)),
     Sample.booked)
  ∧ ∃ mechanic vehicle client schedule,
      users Sample.garage !! 20 = Some mechanic
      ∧ vehicles Sample.garage !! 7 = Some vehicle
      ∧ users Sample.garage !! 10 = Some client
      ∧ schedules Sample.garage !! 5 = Some schedule
      ∧ let c := booked_columns 10 Sample.booking in
        let n := booking_notification Sample.booking vehicle 1 in
        log Sample.booked
        = [AppointmentSaved 1 c; HourRemoved 5 "10:00"; NotificationCreated n]
        ∧ appointments Sample.booked !! 1 = Some c
        ∧ Appointment.status c = PENDING
        ∧ (∃ sch', schedules Sample.booked !! 5 = Some sch'
                   ∧ "10:00" ∉ Schedule.availableHours sch')
        ∧ notifications Sample.booked = [n]
        ∧ Notification.userId n = 20
        ∧ Notification.appointmentId n = Some 1
        ∧ Appointment.mk (Some 1) (booked_columns 10 Sample.booking)
            (Some Sample.ana) (Some Sample.mario) (Some Sample.car)
            (Some Sample.thursday)
          = Appointment.mk (Some 1) c (Some client) (Some mechanic)
                           (Some vehicle) (Some schedule).
Proof.
  split; [vm_compute; reflexivity|].
  apply (createAppointment_effects_in_order Sample.garage Sample.booked 10
           Sample.booking).
  vm_compute; reflexivity.
Defined.

(** C9: whenever one of the validations of [createAppointment] fails (the
    mechanic is missing or has another role, the vehicle is missing or is
    not the requester's, the schedule is missing, the hour is not
    available), the call throws and leaves the store exactly as it found
    it: no appointment saved, no hour removed, no notification queued. *)
Theorem createAppointment_atomic_on_failure (s : State) (clientId : Z)
    (dto : CreateAppointmentDto.t) :
  users s !! CreateAppointmentDto.mechanicId dto = None
  ∨ (∃ m, users s !! CreateAppointmentDto.mechanicId dto = Some m
          ∧ User.role m ≠ ROLE.MECHANIC)
  ∨ vehicles s !! CreateAppointmentDto.vehicleId dto = None
  ∨ (∃ v, vehicles s !! CreateAppointmentDto.vehicleId dto = Some v
          ∧ Vehicle.clientId v ≠ clientId)
  ∨ schedules s !! CreateAppointmentDto.scheduleId dto = None
  ∨ (∃ sch, schedules s !! CreateAppointmentDto.scheduleId dto = Some sch
            ∧ CreateAppointmentDto.hour dto ∉ Schedule.availableHours sch) →
  ∃ e, createAppointment clientId dto s = (Thrown e, s).
Proof.
  intros Hbad.
  destruct (booking_failure s clientId dto) as [e|] eqn:Hf.
  { exists e. by apply createAppointment_failure. }
  destruct (booking_failure_None _ _ _ Hf)
    as (m & v & c & sch & [Hm Hr Hv Ho Hc Hs Hh]).
  destruct Hbad
    as [H|[(m' & H & Hr')|[H|[(v' & H & Ho')|[H|(sch' & H & Hh')]]]]];
    by simplify_eq.
Qed.

Lemma createAppointment_atomic_on_failure_witness :
  let dto := CreateAppointmentDto.mk 20 7 5 "15:00" "2026-01-22" "Frenos" in
  (∃ sch, schedules Sample.garage !! 5 = Some sch
          ∧ "15:00" ∉ Schedule.availableHours sch)
  ∧ ∃ e, createAppointment 10 dto Sample.garage = (Thrown e, Sample.garage).
Proof.
  assert (∃ sch, schedules Sample.garage !! 5 = Some sch
                 ∧ "15:00" ∉ Schedule.availableHours sch) as Hhour.
  { exists Sample.thursday. split; [reflexivity|].
    apply (bool_decide_unpack _). by vm_compute. }
  split; [exact Hhour|].
  apply (createAppointment_atomic_on_failure Sample.garage 10
           (CreateAppointmentDto.mk 20 7 5 "15:00" "2026-01-22" "Frenos")).
  do 5 right. exact Hhour.
Defined.

(** More generally, a booking that throws, for whatever reason, has
    written nothing. *)
Lemma createAppointment_thrown_unchanged (s s' : State) (clientId : Z)
    (dto : CreateAppointmentDto.t) (e : HttpException) :
  createAppointment clientId dto s = (Thrown e, s') → s' = s.
Proof.
  intros Hrun.
  destruct (booking_failure s clientId dto) as [e'|] eqn:Hf.
  - rewrite (createAppointment_failure _ _ _ _ Hf) in Hrun. congruence.
  - destruct (booking_failure_None _ _ _ Hf) as (m & v & c & sch & Hb).
    rewrite (createAppointment_success _ _ _ _ _ _ _ Hb) in Hrun.
    discriminate.
Qed.

(** ** Status updates *)

Lemma truthy_string_Some (x : string) : truthy_string (Some x) = true ↔ x ≠ "".
Proof.
  cbn. rewrite negb_true_iff. apply String.eqb_neq.
Qed.

Lemma truthy_string_false (x : option string) :
  truthy_string x = false ↔ x = None ∨ x = Some "".
Proof.
  destruct x as [x|]; cbn.
  - rewrite negb_false_iff, String.eqb_eq. split; [intros ->; by right|].
    intros [?|?]; congruence.
  - split; [by left|done].
Qed.

Lemma apply_update_ok s rels id c dto :
  ¬ (UpdateAppointmentDto.status dto = Some REJECTED
     ∧ truthy_string (UpdateAppointmentDto.rejectionReason dto) = false) →
  ∃ a, apply_update (hydrate s rels id c) dto s
       = (Returned a, store_columns id (updated_columns c dto) s)
       ∧ Appointment.id a = Some id
       ∧ Appointment.columns a = updated_columns c dto.
Proof.
  intros Hreq. unfold apply_update.
  destruct dto as [st rr]; cbn [UpdateAppointmentDto.status
                                  UpdateAppointmentDto.rejectionReason] in *.
  replace (bool_decide (st = Some REJECTED) && negb (truthy_string rr))
    with false; last first.
  { symmetry. apply andb_false_iff. case_bool_decide; [right|by left].
    apply negb_false_iff. destruct (truthy_string rr); [done|].
    by destruct Hreq. }
  unfold appointmentRepository_save, updated_columns, store_columns.
  destruct c. cbn.
  destruct st as [st|], (truthy_string rr); cbn; eexists; split_and!;
    reflexivity.
Qed.

Lemma apply_update_missing_reason a dto s :
  UpdateAppointmentDto.status dto = Some REJECTED →
  truthy_string (UpdateAppointmentDto.rejectionReason dto) = false →
  apply_update a dto s
  = (Thrown (BadRequestException
               "Rejection reason is required when rejecting an appointment"),
     s).
Proof.
  intros Hst Hrr. unfold apply_update.
  by rewrite Hst, Hrr, bool_decide_eq_true_2.
Qed.

(** C4: [updateAppointment] checks, in this order: the appointment exists
    (else NotFound); a mechanic actor is the assigned mechanic and a client
    actor is the owning client (else Forbidden); the stored status is
    [pending] (else BadRequest, only pending appointments can be modified);
    a request for [rejected] carries a non-empty reason (else BadRequest).
    A failed check leaves the store as it was.  When all hold the call
    returns, and a non-empty reason in the request is then the reason
    stored, character for character. *)
Theorem updateAppointment_preconditions_in_order (s : State)
    (appointmentId userId : Z) (userRole : string)
    (dto : UpdateAppointmentDto.t) :
  let r := updateAppointment appointmentId userId userRole dto s in
  match appointments s !! appointmentId with
  | None => r = (Thrown (NotFoundException "Cita no encontrada"), s)
  | Some c =>
    if decide (userRole = ROLE.MECHANIC ∧ Appointment.mechanicId c ≠ userId)
    then r = (Thrown (ForbiddenException
                "No puedes modificar citas que no te han sido asignadas"), s)
    else if decide (userRole = ROLE.CLIENT ∧ Appointment.clientId c ≠ userId)
    then r = (Thrown (ForbiddenException
                "No puedes modificar citas que no te pertenecen"), s)
    else if decide (Appointment.status c ≠ PENDING)
    then r = (Thrown (BadRequestException
                "Only pending appointments can be modified"), s)
    else if decide (UpdateAppointmentDto.status dto = Some REJECTED
                    ∧ (UpdateAppointmentDto.rejectionReason dto = None
                       ∨ UpdateAppointmentDto.rejectionReason dto = Some ""))
    then r = (Thrown (BadRequestException
                "Rejection reason is required when rejecting an appointment"),
              s)
    else ∃ a c',
        r.1 = Returned a
        ∧ appointments r.2 !! appointmentId = Some c'
        ∧ Appointment.columns a = c'
        ∧ Appointment.status c'
          = default PENDING (UpdateAppointmentDto.status dto)
        ∧ ∀ reason,
            UpdateAppointmentDto.rejectionReason dto = Some reason →
            reason ≠ "" →
            Appointment.rejectionReason c' = Some reason
  end.
Proof.
  cbv zeta. unfold updateAppointment.
  rewrite (bind_returned _ _ _ _ _ (findOne_at _ _ _)).
  destruct (appointments s !! appointmentId) as [c|] eqn:Hc; [|done].
  cbn [fmap option_fmap option_map hydrate Appointment.columns].
  destruct (decide (userRole = ROLE.MECHANIC ∧ _)) as [[-> Hm]|Hm].
  { by rewrite !bool_decide_eq_true_2 by done. }
  replace (bool_decide (userRole = ROLE.MECHANIC)
           && bool_decide (Appointment.mechanicId c ≠ userId)) with false
    by (symmetry; apply andb_false_iff; do 2 case_bool_decide; tauto).
  destruct (decide (userRole = ROLE.CLIENT ∧ _)) as [[-> Hcl]|Hcl].
  { by rewrite !bool_decide_eq_true_2 by done. }
  replace (bool_decide (userRole = ROLE.CLIENT)
           && bool_decide (Appointment.clientId c ≠ userId)) with false
    by (symmetry; apply andb_false_iff; do 2 case_bool_decide; tauto).
  destruct (decide (Appointment.status c ≠ PENDING)) as [Hst|Hst].
  { by rewrite bool_decide_eq_true_2 by done. }
  rewrite bool_decide_eq_false_2 by done.
  apply dec_stable in Hst.
  destruct (decide (_ ∧ _)) as [[Hrej Hrr]|Hreq].
  { apply apply_update_missing_reason; [done|].
    by apply truthy_string_false. }
  destruct (apply_update_ok s all_relations appointmentId c dto)
    as (a & -> & _ & Hcols).
  { intros [? ?%truthy_string_false]. by apply Hreq. }
  exists a, (updated_columns c dto). cbn [fst snd]. split_and!; try done.
  - apply lookup_insert_eq.
  - cbn. rewrite Hst. by destruct (UpdateAppointmentDto.status dto).
  - intros reason Hr Hne. cbn. rewrite Hr.
    by rewrite (proj2 (truthy_string_Some reason) Hne).
Qed.

(** [updateAppointment] writes nothing but the appointment: whatever the
    request, the schedules and the queued notifications are as before. *)
Lemma updateAppointment_writes_appointment_only (s : State)
    (appointmentId userId : Z) (userRole : string)
    (dto : UpdateAppointmentDto.t) :
  let s' := (updateAppointment appointmentId userId userRole dto s).2 in
  schedules s' = schedules s ∧ notifications s' = notifications s.
Proof.
  cbv zeta. unfold updateAppointment.
  rewrite (bind_returned _ _ _ _ _ (findOne_at _ _ _)).
  destruct (appointments s !! appointmentId) as [c|]; [|done].
  cbn [fmap option_fmap option_map].
  repeat (match goal with |- context [if ?b then _ else _] =>
            destruct b; [done|] end).
  unfold apply_update.
  match goal with |- context [if ?b then throw _ else _] =>
    destruct b; [done|] end.
  unfold appointmentRepository_save.
  match goal with |- context [Appointment.id ?a] =>
    destruct (Appointment.id a) end; done.
Qed.

(** C1, at a failing input: Ana has booked Mario's 10:00 slot, and Mario
    rejects it through PATCH /appointments/1 with a reason.  The status
    and the reason are stored, but the 10:00 slot stays out of the
    schedule and nothing is queued for Ana: the only notification is the
    one the booking sent to Mario.  The same holds when he accepts through
    that route.  [rejectAppointment], on the same store and with the same
    reason, does put the hour back and notifies Ana, naming the reason, and
    [acceptAppointment] notifies her. *)
Theorem updateAppointment_neither_restores_nor_notifies :
  let mario := JwtPayload.mk 20 "mario@garage.cl" ROLE.MECHANIC in
  let reject :=
    UpdateAppointmentDto.mk (Some REJECTED) (Some "no disponible") in
  let accept := UpdateAppointmentDto.mk (Some ACCEPTED) None in
  let patched :=
    (controller_updateAppointment (λ a, a) 1 mario reject Sample.booked).2 in
  let accepted :=
    (controller_updateAppointment (λ a, a) 1 mario accept Sample.booked).2 in
  let rejected :=
    (rejectAppointment 1 20 (RejectAppointmentDto.mk "no disponible")
                       Sample.booked).2 in
  let brief (n : Notification.t) :=
    (Notification.userId n, Notification.type n, Notification.message n) in
  (* the PATCH route, rejecting *)
  (λ c, (Appointment.status c, Appointment.rejectionReason c))
    <$> appointments patched !! 1 = Some (REJECTED, Some "no disponible")
  ∧ Schedule.availableHours <$> schedules patched !! 5
    = Some ["09:00"; "11:00"]
  ∧ notifications patched = notifications Sample.booked
  ∧ Notification.userId <$> notifications patched = [20]
  (* the PATCH route, accepting *)
  ∧ Appointment.status <$> appointments accepted !! 1 = Some ACCEPTED
  ∧ notifications accepted = notifications Sample.booked
  (* the sibling methods *)
  ∧ Schedule.availableHours <$> schedules rejected !! 5
    = Some ["09:00"; "11:00"; "10:00"]
  ∧ brief <$> drop 1 (notifications rejected)
    = [(10, APPOINTMENT_REJECTED,
        "Tu cita ha sido rechazada. Razón: no disponible")]
  ∧ brief <$> drop 1 (notifications (acceptAppointment 1 20 Sample.booked).2)
    = [(10, APPOINTMENT_ACCEPTED,
        "Tu cita para el vehículo ABCD12 ha sido aceptada por el mecánico")].
Proof. cbv zeta. split_and!; vm_compute; reflexivity. Qed.

(** ** Reading one appointment and cancelling *)

Lemma getAppointmentById_run (id : Z) (s : State) :
  getAppointmentById id s
  = match appointments s !! id with
    | Some c => (Returned (hydrate s all_relations id c), s)
    | None => (Thrown (NotFoundException "Cita no encontrada"), s)
    end.
Proof.
  unfold getAppointmentById.
  rewrite (bind_returned _ _ _ _ _ (findOne_at _ _ _)).
  by destruct (appointments s !! id).
Qed.

(** C10: GET /appointments/:id checks neither ownership nor role.  For an
    id that is stored, every authenticated requester gets the same answer:
    the appointment with its client, mechanic, vehicle and schedule
    joined, passed through the response projection.  The route fails, with
    NotFound, exactly when no appointment has that id.  The store is not
    touched. *)
Theorem getAppointment_ignores_requester
    {T : Type} (toSafe : Appointment.t → T)
    (s : State) (user : JwtPayload.t) (id : Z) :
  getAppointmentById id s
  = match appointments s !! id with
    | Some c =>
        (Returned (Appointment.mk (Some id) c
                     (users s !! Appointment.clientId c)
                     (users s !! Appointment.mechanicId c)
                     (vehicles s !! Appointment.vehicleId c)
                     (schedules s !! Appointment.scheduleId c)), s)
    | None => (Thrown (NotFoundException "Cita no encontrada"), s)
    end
  ∧ GET_appointments_id toSafe user id s
    = match getAppointmentById id s with
      | (Returned a, s') =>
          (Returned (mkApiResponse true "Cita obtenida exitosamente"
                       (Some (toSafe a))), s')
      | (Thrown e, s') => (Thrown e, s')
      end
  ∧ (∀ other : JwtPayload.t,
       GET_appointments_id toSafe other id s
       = GET_appointments_id toSafe user id s)
  ∧ ((∃ e, (GET_appointments_id toSafe user id s).1 = Thrown e)
     ↔ appointments s !! id = None).
Proof.
  split_and!.
  - rewrite getAppointmentById_run. by destruct (appointments s !! id).
  - unfold GET_appointments_id, controller_getAppointment, bind.
    by destruct (getAppointmentById id s) as [[a|e] s'].
  - done.
  - unfold GET_appointments_id, controller_getAppointment, bind.
    rewrite getAppointmentById_run.
    destruct (appointments s !! id); cbn; split; try done.
    + by intros [e ?].
    + eauto.
Qed.

Lemma deleteAppointment_run (s : State) (id userId : Z) :
  deleteAppointment id userId s
  = match appointments s !! id with
    | None => (Thrown (NotFoundException "Cita no encontrada"), s)
    | Some c =>
        if bool_decide (Appointment.clientId c ≠ userId)
        then (Thrown (ForbiddenException
                        "No puedes cancelar citas que no te pertenecen"), s)
        else if bool_decide (Appointment.status c ≠ PENDING)
                && bool_decide (Appointment.status c ≠ ACCEPTED)
        then (Thrown (BadRequestException
                "Solo las citas pendientes o aceptadas pueden ser canceladas"),
              s)
        else schedulesService_addHourToSchedule
               (Appointment.scheduleId c) (Appointment.hour c)
               (appointmentRepository_delete id s).2
    end.
Proof.
  unfold deleteAppointment.
  pose proof (getAppointmentById_run id s) as Hget.
  destruct (appointments s !! id) as [c|] eqn:Hc;
    [rewrite (bind_returned _ _ _ _ _ Hget)
    |by rewrite (bind_thrown _ _ _ _ _ Hget)].
  cbn [hydrate Appointment.columns].
  by repeat (match goal with |- context [if ?b then _ else _] =>
               destruct b; [done|] end).
Qed.

(** C8: [deleteAppointment] throws NotFound when no appointment has the
    id, Forbidden when the requester is not the owning client, and
    BadRequest when the status is [rejected], each time leaving the store
    as it was.  Otherwise, that is from [pending] or [accepted], the
    record is deleted, and the appointment's hour is put back among the
    available hours of its schedule.  (Restoring needs the schedule the
    appointment refers to; were that row gone, the schedule service would
    throw NotFound with the record already deleted.) *)
Theorem deleteAppointment_cancels (s : State) (id userId : Z) :
  let r := deleteAppointment id userId s in
  match appointments s !! id with
  | None => r = (Thrown (NotFoundException "Cita no encontrada"), s)
  | Some c =>
    if decide (Appointment.clientId c ≠ userId)
    then r = (Thrown (ForbiddenException
                        "No puedes cancelar citas que no te pertenecen"), s)
    else if decide (Appointment.status c = REJECTED)
    then r = (Thrown (BadRequestException
                "Solo las citas pendientes o aceptadas pueden ser canceladas"),
              s)
    else
      appointments r.2 = delete id (appointments s)
      ∧ match schedules s !! Appointment.scheduleId c with
        | Some sch =>
            r.1 = Returned tt
            ∧ ∃ sch', schedules r.2 !! Appointment.scheduleId c = Some sch'
                      ∧ Appointment.hour c ∈ Schedule.availableHours sch'
        | None => ∃ msg, r.1 = Thrown (NotFoundException msg)
        end
  end.
Proof.
  cbv zeta. rewrite deleteAppointment_run.
  destruct (appointments s !! id) as [c|] eqn:Hc; [|done].
  destruct (decide (Appointment.clientId c ≠ userId)) as [Ho|Ho].
  { by rewrite bool_decide_eq_true_2 by done. }
  rewrite bool_decide_eq_false_2 by done.
  destruct (decide (Appointment.status c = REJECTED)) as [Hst|Hst].
  { by rewrite Hst. }
  replace (bool_decide (Appointment.status c ≠ PENDING)
           && bool_decide (Appointment.status c ≠ ACCEPTED)) with false
    by (by destruct (Appointment.status c)).
  unfold appointmentRepository_delete,
    schedulesService_addHourToSchedule, write_schedule.
  cbn. destruct (schedules s !! Appointment.scheduleId c) as [sch|] eqn:Hs;
    cbn; [|eauto].
  split_and!; try done.
  eexists. split; [apply lookup_insert_eq|]. cbn.
  case_bool_decide; [done|].
  rewrite elem_of_app, list_elem_of_singleton. by right.
Qed.

(** ** The lifecycle as a state machine *)

Lemma createAppointment_moves clientId dto s :
  moves s (createAppointment clientId dto s).2 Booking.
Proof.
  destruct (booking_failure s clientId dto) as [e|] eqn:Hf.
  - rewrite (createAppointment_failure _ _ _ _ Hf). by apply moves_nothing.
  - destruct (booking_failure_None _ _ _ Hf) as (m & v & c & sch & Hb).
    rewrite (createAppointment_success _ _ _ _ _ _ _ Hb).
    by apply (moves_book _ _ (booked_columns clientId dto)).
Qed.

Lemma apply_update_moves s rels id c dto :
  appointments s !! id = Some c →
  Appointment.status c = PENDING →
  moves s (apply_update (hydrate s rels id c) dto s).2 StatusUpdate.
Proof.
  intros Hc Hst. unfold apply_update. split_guards.
  - by apply moves_nothing.
  - unfold appointmentRepository_save.
    destruct (UpdateAppointmentDto.status dto),
      (truthy_string (UpdateAppointmentDto.rejectionReason dto)); cbn;
      by eapply moves_update.
Qed.

Lemma pending_of_guard (c : Appointment.Columns) :
  bool_decide (Appointment.status c ≠ PENDING) = false →
  Appointment.status c = PENDING.
Proof. intros H%bool_decide_eq_false. by apply dec_stable. Qed.

Lemma updateAppointment_moves appointmentId userId userRole dto s :
  moves s (updateAppointment appointmentId userId userRole dto s).2
        StatusUpdate.
Proof.
  unfold updateAppointment.
  rewrite (bind_returned _ _ _ _ _ (findOne_at _ _ _)).
  destruct (appointments s !! appointmentId) as [c|] eqn:Hc;
    [|by apply moves_nothing].
  cbn [fmap option_fmap option_map hydrate Appointment.columns].
  split_guards; try by apply moves_nothing.
  apply apply_update_moves; [done|by apply pending_of_guard].
Qed.

Lemma updateAppointmentStatus_moves appointmentId mechanicId dto s :
  moves s (updateAppointmentStatus appointmentId mechanicId dto s).2
        StatusUpdate.
Proof.
  unfold updateAppointmentStatus.
  rewrite (bind_returned _ _ _ _ _ (findOne_at _ _ _)).
  destruct (appointments s !! appointmentId) as [c|] eqn:Hc;
    [|by apply moves_nothing].
  cbn [fmap option_fmap option_map hydrate Appointment.columns].
  split_guards; try by apply moves_nothing.
  apply apply_update_moves; [done|by apply pending_of_guard].
Qed.

Lemma acceptAppointment_moves appointmentId mechanicId s :
  moves s (acceptAppointment appointmentId mechanicId s).2 StatusUpdate.
Proof.
  unfold acceptAppointment.
  rewrite (bind_returned _ _ _ _ _ (findOne_at _ _ _)).
  destruct (appointments s !! appointmentId) as [c|] eqn:Hc;
    [|by apply moves_nothing].
  cbn [fmap option_fmap option_map hydrate Appointment.columns].
  split_guards; try by apply moves_nothing.
  unfold bind, appointmentRepository_save. cbn.
  destruct (vehicles s !! Appointment.vehicleId c); cbn;
    (eapply moves_update; [done|by apply pending_of_guard|done..]).
Qed.

Lemma rejectAppointment_moves appointmentId mechanicId dto s :
  moves s (rejectAppointment appointmentId mechanicId dto s).2 StatusUpdate.
Proof.
  unfold rejectAppointment.
  rewrite (bind_returned _ _ _ _ _ (findOne_at _ _ _)).
  destruct (appointments s !! appointmentId) as [c|] eqn:Hc;
    [|by apply moves_nothing].
  cbn [fmap option_fmap option_map hydrate Appointment.columns].
  split_guards; try by apply moves_nothing.
  unfold bind, appointmentRepository_save,
    schedulesService_addHourToSchedule. cbn.
  destruct (schedules s !! Appointment.scheduleId c); cbn;
    (eapply moves_update; [done|by apply pending_of_guard|done..]).
Qed.

Lemma deleteAppointment_moves id userId s :
  moves s (deleteAppointment id userId s).2 Cancellation.
Proof.
  rewrite deleteAppointment_run.
  destruct (appointments s !! id) as [c|] eqn:Hc; [|by apply moves_nothing].
  case_bool_decide; [by apply moves_nothing|].
  destruct (bool_decide (Appointment.status c ≠ PENDING) && _) eqn:Hguard;
    [by apply moves_nothing|].
  unfold appointmentRepository_delete, schedulesService_addHourToSchedule.
  cbn.
  destruct (schedules s !! Appointment.scheduleId c); cbn;
    (eapply moves_cancel; [done| |done..]);
    intros Hst; by rewrite Hst in Hguard.
Qed.

Lemma handle_moves (req : Request) (s : State) :
  moves s (handle req s) (path req).
Proof.
  destruct req; cbn [handle path].
  - apply createAppointment_moves.
  - by apply moves_nothing.
  - by apply moves_nothing.
  - by apply moves_nothing.
  - apply updateAppointment_moves.
  - apply updateAppointmentStatus_moves.
  - apply acceptAppointment_moves.
  - apply rejectAppointment_moves.
  - rewrite getAppointmentById_run.
    destruct (appointments s !! id); by apply moves_nothing.
  - apply deleteAppointment_moves.
Qed.

Lemma moves_fresh (s s' : State) (p : Path) :
  moves s s' p → fresh_ids s → fresh_ids s'.
Proof.
  unfold fresh_ids.
  intros [p' Ha Hn|c _ Ha Hn|id c c' Hc _ Ha Hn|id c Hc _ Ha Hn] Hfresh;
    rewrite Ha, Hn.
  - done.
  - apply map_Forall_insert_2; [lia|].
    eapply map_Forall_impl; [done|]. cbn. intros; lia.
  - apply map_Forall_insert_2; [|done]. by apply (Hfresh id c).
  - by apply map_Forall_delete.
Qed.

Lemma serve_fresh (history : list Request) (s : State) :
  fresh_ids s → fresh_ids (serve history s).
Proof.
  revert s. induction history as [|req history IH]; intros s Hfresh; [done|].
  cbn. apply IH. by eapply moves_fresh, Hfresh; apply handle_moves.
Qed.

(** How the status stored under one id changes in one call. *)
Lemma moves_status (s s' : State) (p : Path) (id : Z) :
  moves s s' p → fresh_ids s →
  status_at s' id = status_at s id
  ∨ (p = Booking ∧ status_at s id = None ∧ status_at s' id = Some PENDING)
  ∨ (p = StatusUpdate ∧ status_at s id = Some PENDING
     ∧ is_Some (status_at s' id))
  ∨ (p = Cancellation ∧ status_at s' id = None
     ∧ (status_at s id = Some PENDING ∨ status_at s id = Some ACCEPTED)).
Proof.
  unfold status_at.
  intros [p' Ha Hn|c Hp Ha Hn|i c c' Hc Hp Ha Hn|i c Hc Hr Ha Hn] Hfresh;
    rewrite Ha.
  - by left.
  - destruct (decide (nextAppointmentId s = id)) as [<-|Hne].
    + right; left. rewrite lookup_insert_eq. cbn. rewrite Hp.
      split_and!; try done.
      destruct (appointments s !! nextAppointmentId s) as [c0|] eqn:Hc0;
        [|done].
      apply Hfresh in Hc0. cbn in Hc0. lia.
    + left. by rewrite lookup_insert_ne.
  - destruct (decide (i = id)) as [<-|Hne].
    + right; right; left. rewrite lookup_insert_eq, Hc. cbn.
      rewrite Hp. by split_and!.
    + left. by rewrite lookup_insert_ne.
  - destruct (decide (i = id)) as [<-|Hne].
    + right; right; right. rewrite lookup_delete_eq, Hc. cbn.
      split_and!; try done. by destruct (Appointment.status c); auto.
    + left. by rewrite lookup_delete_ne.
Qed.

(** C5: along every sequence of service calls, from a store whose ids are
    fresh, and for every appointment id: (1) a call changes the stored
    status only from [pending] to [accepted] or [rejected]; (2) no call on
    the status-update path (updateAppointment, updateAppointmentStatus,
    acceptAppointment, rejectAppointment) changes an appointment that is
    [accepted] or [rejected]; (3) an appointment disappears only through
    [deleteAppointment] and only from [pending] or [accepted]; and an
    appointment that appears is [pending]. *)
Theorem status_only_leaves_pending (s0 : State) (history : list Request)
    (req : Request) (id : Z) :
  fresh_ids s0 →
  let s := serve history s0 in
  let s' := handle req s in
  (∀ st st', status_at s id = Some st → status_at s' id = Some st' →
     st' = st ∨ (st = PENDING ∧ (st' = ACCEPTED ∨ st' = REJECTED)))
  ∧ (path req = StatusUpdate →
     status_at s id = Some ACCEPTED ∨ status_at s id = Some REJECTED →
     status_at s' id = status_at s id)
  ∧ (∀ st, status_at s id = Some st → status_at s' id = None →
       path req = Cancellation ∧ (st = PENDING ∨ st = ACCEPTED))
  ∧ (status_at s id = None →
     status_at s' id = None ∨ status_at s' id = Some PENDING).
Proof.
  intros Hfresh0 s s'.
  assert (fresh_ids s) as Hfresh by by apply serve_fresh.
  pose proof (moves_status s s' (path req) id (handle_moves req s) Hfresh)
    as [Hsame|[(Hp & Hnone & Hnew)|[(Hp & Hold & Hnew)|(Hp & Hgone & Hold)]]].
  - rewrite Hsame. split_and!; try done.
    + intros st st' ? ?. left. congruence.
    + congruence.
    + auto.
  - rewrite Hnone, Hnew. split_and!; try done.
    + rewrite Hp. done.
    + auto.
  - rewrite Hold. destruct Hnew as [st1 Hnew]. rewrite Hnew.
    split_and!; try done.
    + intros st st' [= <-] [= <-]. destruct st1; auto.
    + intros _ [?|?]; done.
  - rewrite Hgone. split_and!; try done.
    + rewrite Hp. done.
    + intros st Hst _. split; [done|].
      destruct Hold as [Ho|Ho]; rewrite Ho in Hst; injection Hst as <-; auto.
    + auto.
Qed.

Lemma status_only_leaves_pending_witness :
  let history := [CreateAppointment 10 Sample.booking;
                  AcceptAppointment 1 20] in
  let s := serve history Sample.garage in
  let s' := handle (DeleteAppointment 1 10) s in
  fresh_ids Sample.garage
  ∧ status_at s 1 = Some ACCEPTED
  ∧ status_at s' 1 = None
  ∧ (∀ st, status_at s 1 = Some st → status_at s' 1 = None →
       path (DeleteAppointment 1 10) = Cancellation
       ∧ (st = PENDING ∨ st = ACCEPTED)).
Proof.
  cbv zeta.
  assert (fresh_ids Sample.garage) as Hfresh by apply map_Forall_empty.
  split_and!; [exact Hfresh|vm_compute; reflexivity..|].
  exact (proj1 (proj2 (proj2
    (status_only_leaves_pending Sample.garage
       [CreateAppointment 10 Sample.booking; AcceptAppointment 1 20]
       (DeleteAppointment 1 10) 1 Hfresh)))).
Defined.

(** ** Listing *)

Lemma string_compare_lt_trans (a b c : string) :
  String.compare a b = Lt → String.compare b c = Lt →
  String.compare a c = Lt.
Proof. apply (@StrictOrder_Transitive _ _ OrdersEx.String_as_OT.lt_strorder). Qed.

Lemma string_compare_refl (a : string) : String.compare a a = Eq.
Proof.
  destruct (String.compare a a) eqn:H; [done|..];
    pose proof (String.compare_antisym a a) as Ha; rewrite H in Ha; done.
Qed.

Lemma string_compare_le_trans (a b c : string) :
  String.compare a b ≠ Gt → String.compare b c ≠ Gt →
  String.compare a c ≠ Gt.
Proof.
  intros Hab Hbc.
  destruct (String.compare a b) eqn:Eab; [| |done].
  { apply String.compare_eq_iff in Eab as ->. done. }
  destruct (String.compare b c) eqn:Ebc; [| |done].
  { apply String.compare_eq_iff in Ebc as <-. by rewrite Eab. }
  by rewrite (string_compare_lt_trans a b c).
Qed.

Lemma date_hour_cmp_le (c1 c2 : Appointment.Columns) :
  date_hour_cmp c1 c2 ≠ Gt ↔
  String.compare (Appointment.date c1) (Appointment.date c2) = Lt
  ∨ (Appointment.date c1 = Appointment.date c2
     ∧ String.compare (Appointment.hour c1) (Appointment.hour c2) ≠ Gt).
Proof.
  unfold date_hour_cmp.
  destruct (String.compare (Appointment.date c1) (Appointment.date c2))
    eqn:Ed.
  - apply String.compare_eq_iff in Ed. split; [by right|].
    by intros [?|[_ ?]].
  - split; [by left|done].
  - split; [done|]. intros [?|[Heq _]]; [done|].
    rewrite Heq, string_compare_refl in Ed. done.
Qed.

Lemma date_hour_le_total : Total date_hour_le.
Proof.
  intros [i1 c1] [i2 c2]. unfold date_hour_le, date_hour_cmp. cbn.
  rewrite (String.compare_antisym (Appointment.date c1)).
  rewrite (String.compare_antisym (Appointment.hour c1)).
  destruct (String.compare (Appointment.date c2) (Appointment.date c1)),
    (String.compare (Appointment.hour c2) (Appointment.hour c1)); cbn;
    (by left) || (by right).
Qed.

Lemma date_hour_le_trans : Transitive date_hour_le.
Proof.
  intros [i1 c1] [i2 c2] [i3 c3]. unfold date_hour_le. cbn.
  rewrite !date_hour_cmp_le.
  intros [H12|[E12 H12]] [H23|[E23 H23]].
  - left. by apply (string_compare_lt_trans _ (Appointment.date c2)).
  - left. by rewrite <- E23.
  - left. by rewrite E12.
  - right. split; [congruence|].
    by apply (string_compare_le_trans _ (Appointment.hour c2)).
Qed.

(** What a [find] returns: the stored appointments that meet the where
    clause, each once per id, with the asked relations joined, in the
    asked order. *)
Lemma find_returns (w : Where.t) (rels : list Relation) (s : State) :
  ∃ l, appointmentRepository_find w rels s = (Returned l, s)
       ∧ (∀ a, a ∈ l ↔ ∃ id c, appointments s !! id = Some c
                               ∧ Where.matches w c = true
                               ∧ a = hydrate s rels id c)
       ∧ StronglySorted by_date_then_hour l.
Proof.
  eexists. split; [reflexivity|]. split.
  - intros a. rewrite list_elem_of_fmap. split.
    + intros ([id c] & -> & Hin).
      rewrite merge_sort_Permutation in Hin.
      apply list_elem_of_filter in Hin as [Hm Hin].
      apply elem_of_map_to_list in Hin. by exists id, c.
    + intros (id & c & Hc & Hm & ->). exists (id, c). split; [done|].
      rewrite merge_sort_Permutation. apply list_elem_of_filter.
      split; [done|]. by apply elem_of_map_to_list.
  - pose proof date_hour_le_total. pose proof date_hour_le_trans.
    eapply StronglySorted_fmap; [|apply StronglySorted_merge_sort; apply _].
    intros [i1 c1] [i2 c2] Hle. unfold by_date_then_hour. cbn.
    by apply date_hour_cmp_le.
Qed.

Lemma findAll_where (userId : Z) (userRole : string)
    (status : option string) (clientId mechanicId : option Z)
    (date : option string) :
  findAll userId userRole status clientId mechanicId date
  = appointmentRepository_find
      (scope_where userId userRole status clientId mechanicId date)
      listing_relations.
Proof.
  unfold findAll, scope_where. f_equal.
  destruct (decide (userRole = ROLE.CLIENT)) as [->|Hc].
  - rewrite (bool_decide_eq_true_2 (ROLE.CLIENT = ROLE.CLIENT)) by done.
    rewrite (bool_decide_eq_false_2 (ROLE.CLIENT ≠ ROLE.CLIENT)) by tauto.
    rewrite (bool_decide_eq_false_2 (ROLE.CLIENT = ROLE.MECHANIC))
      by discriminate.
    rewrite andb_false_r, andb_true_r.
    by destruct (truthy_number mechanicId), (truthy_string status),
      (truthy_string date).
  - rewrite (bool_decide_eq_false_2 (userRole = ROLE.CLIENT)) by done.
    rewrite (bool_decide_eq_true_2 (userRole ≠ ROLE.CLIENT)) by done.
    rewrite andb_true_r.
    destruct (decide (userRole = ROLE.MECHANIC)) as [->|Hm].
    + rewrite (bool_decide_eq_true_2 (ROLE.MECHANIC = ROLE.MECHANIC))
        by done.
      rewrite (bool_decide_eq_false_2 (ROLE.MECHANIC ≠ ROLE.MECHANIC))
        by tauto.
      rewrite andb_false_r.
      by destruct (truthy_number clientId), (truthy_string status),
        (truthy_string date).
    + rewrite (bool_decide_eq_false_2 (userRole = ROLE.MECHANIC)) by done.
      rewrite (bool_decide_eq_true_2 (userRole ≠ ROLE.MECHANIC)) by done.
      rewrite andb_true_r.
      by destruct (truthy_number clientId), (truthy_number mechanicId),
        (truthy_string status), (truthy_string date).
Qed.

Lemma truthy_number_Some (x : Z) : truthy_number (Some x) = true ↔ x ≠ 0.
Proof. cbn. rewrite negb_true_iff. apply Z.eqb_neq. Qed.

Lemma holds_truthy_number (x : option Z) (v : Z) :
  Where.holds (if truthy_number x then x else None) v = true
  ↔ ∀ y, x = Some y → y ≠ 0 → v = y.
Proof.
  destruct x as [y|]; [|done].
  destruct (truthy_number (Some y)) eqn:Ht; cbn.
  - apply truthy_number_Some in Ht. rewrite bool_decide_eq_true.
    split; [by intros -> ? [= <-]|]. intros H. by apply H.
  - split; [|done]. intros _ ? [= <-] Hne.
    apply truthy_number_Some in Hne. congruence.
Qed.

Lemma holds_truthy_string (x : option string) (v : string) :
  Where.holds (if truthy_string x then x else None) v = true
  ↔ ∀ y, x = Some y → y ≠ "" → v = y.
Proof.
  destruct x as [y|]; [|done].
  destruct (truthy_string (Some y)) eqn:Ht; cbn.
  - apply truthy_string_Some in Ht. rewrite bool_decide_eq_true.
    split; [by intros -> ? [= <-]|]. intros H. by apply H.
  - split; [|done]. intros _ ? [= <-] Hne.
    apply truthy_string_Some in Hne. congruence.
Qed.

Lemma matches_scope_where (userId : Z) (userRole : string)
    (status : option string) (clientId mechanicId : option Z)
    (date : option string) (c : Appointment.Columns) :
  Where.matches
    (scope_where userId userRole status clientId mechanicId date) c = true
  ↔ in_scope userId userRole clientId mechanicId c
    ∧ (∀ st, status = Some st → st ≠ "" →
         status_literal (Appointment.status c) = st)
    ∧ (∀ d, date = Some d → d ≠ "" → Appointment.date c = d).
Proof.
  unfold Where.matches, scope_where, in_scope. cbn.
  rewrite !andb_true_iff, !holds_truthy_string.
  assert (Where.holds
            (if bool_decide (userRole = ROLE.CLIENT) then Some userId
             else if truthy_number clientId then clientId else None)
            (Appointment.clientId c) = true
          ↔ (userRole = ROLE.CLIENT → Appointment.clientId c = userId)
            ∧ (userRole ≠ ROLE.CLIENT → ∀ x, clientId = Some x → x ≠ 0 →
                 Appointment.clientId c = x)) as ->.
  { case_bool_decide.
    - cbn. rewrite bool_decide_eq_true. split; [by split|]. intros [H' _].
      by apply H'.
    - rewrite holds_truthy_number. split; [by split|]. intros [_ H'].
      by apply H'. }
  assert (Where.holds
            (if bool_decide (userRole = ROLE.MECHANIC) then Some userId
             else if truthy_number mechanicId then mechanicId else None)
            (Appointment.mechanicId c) = true
          ↔ (userRole = ROLE.MECHANIC → Appointment.mechanicId c = userId)
            ∧ (userRole ≠ ROLE.MECHANIC → ∀ x, mechanicId = Some x → x ≠ 0 →
                 Appointment.mechanicId c = x)) as ->.
  { case_bool_decide.
    - cbn. rewrite bool_decide_eq_true. split; [by split|]. intros [H' _].
      by apply H'.
    - rewrite holds_truthy_number. split; [by split|]. intros [_ H'].
      by apply H'. }
  tauto.
Qed.

(** What [findAll] returns, in the vocabulary of the properties. *)
Lemma findAll_returns (s : State) (userId : Z) (userRole : string)
    (status : option string) (clientId mechanicId : option Z)
    (date : option string) :
  ∃ l, findAll userId userRole status clientId mechanicId date s
       = (Returned l, s)
       ∧ (∀ a, a ∈ l ↔
            ∃ id c, appointments s !! id = Some c
                    ∧ a = hydrate s listing_relations id c
                    ∧ in_scope userId userRole clientId mechanicId c
                    ∧ (∀ st, status = Some st → st ≠ "" →
                         status_literal (Appointment.status c) = st)
                    ∧ (∀ d, date = Some d → d ≠ "" → Appointment.date c = d))
       ∧ StronglySorted by_date_then_hour l.
Proof.
  rewrite findAll_where.
  destruct (find_returns
              (scope_where userId userRole status clientId mechanicId date)
              listing_relations s) as (l & Hrun & Hin & Hsorted).
  exists l. split_and!; [done| |done].
  intros a. rewrite Hin. split.
  - intros (id & c & Hc & Hm%matches_scope_where & ->).
    exists id, c. tauto.
  - intros (id & c & Hc & -> & Hscope & Hst & Hd). exists id, c.
    split_and!; [done| |done]. apply matches_scope_where. tauto.
Qed.

(** C6: in every listing, a requester with role [client] gets only
    appointments whose clientId is the requester's id, whatever clientId
    filter the request carries (the answer is the one for any other
    clientId filter); a requester with role [mechanic] gets only
    appointments whose mechanicId is the requester's id, whatever
    mechanicId filter the request carries; and a clientId or mechanicId
    filter that is supplied (a non-zero number, as [if (clientId)] tests
    it) restricts the listing exactly when the requester's role does not
    pin that field. *)
Theorem findAll_scoped_by_role (s : State) (userId : Z) (userRole : string)
    (status : option string) (clientId mechanicId : option Z)
    (date : option string) :
  ∃ l, findAll userId userRole status clientId mechanicId date s
       = (Returned l, s)
    ∧ (userRole = ROLE.CLIENT →
         Forall (λ a, Appointment.clientId (Appointment.columns a) = userId) l
         ∧ ∀ other,
             findAll userId userRole status other mechanicId date s
             = (Returned l, s))
    ∧ (userRole = ROLE.MECHANIC →
         Forall (λ a, Appointment.mechanicId (Appointment.columns a) = userId)
                l
         ∧ ∀ other,
             findAll userId userRole status clientId other date s
             = (Returned l, s))
    ∧ (userRole ≠ ROLE.CLIENT → ∀ x, clientId = Some x → x ≠ 0 →
         Forall (λ a, Appointment.clientId (Appointment.columns a) = x) l)
    ∧ (userRole ≠ ROLE.MECHANIC → ∀ x, mechanicId = Some x → x ≠ 0 →
         Forall (λ a, Appointment.mechanicId (Appointment.columns a) = x) l).
Proof.
  destruct (findAll_returns s userId userRole status clientId mechanicId date)
    as (l & Hrun & Hin & _).
  exists l. split; [done|].
  assert (∀ a, a ∈ l →
            in_scope userId userRole clientId mechanicId
                     (Appointment.columns a)) as Hscope.
  { intros a (id & c & _ & -> & Hs & _)%Hin. done. }
  split_and!.
  - intros Hrole. split.
    + apply Forall_forall. intros a Ha.
      destruct (Hscope a Ha) as (H1 & _). by apply H1.
    + intros other. rewrite <- Hrun, !findAll_where.
      unfold scope_where.
      by rewrite !(bool_decide_eq_true_2 (userRole = ROLE.CLIENT)) by done.
  - intros Hrole. split.
    + apply Forall_forall. intros a Ha.
      destruct (Hscope a Ha) as (_ & H2 & _). by apply H2.
    + intros other. rewrite <- Hrun, !findAll_where.
      unfold scope_where.
      by rewrite !(bool_decide_eq_true_2 (userRole = ROLE.MECHANIC)) by done.
  - intros Hrole x Hx Hne. apply Forall_forall. intros a Ha.
    destruct (Hscope a Ha) as (_ & _ & H3 & _). by apply H3.
  - intros Hrole x Hx Hne. apply Forall_forall. intros a Ha.
    destruct (Hscope a Ha) as (_ & _ & _ & H4). by apply H4.
Qed.

(** C7: in every listing, the appointments returned are exactly the stored
    ones in the caller's scope that meet the status and date filters, each
    with its client, mechanic and vehicle joined.  A status or date filter
    that is supplied (a non-empty string) is an equality on the stored
    value, letter for letter; one that is absent restricts nothing, so
    without a status filter appointments of every status are returned.
    The result is ordered by date ascending, then by hour ascending. *)
Theorem findAll_filters_and_order (s : State) (userId : Z)
    (userRole : string) (status : option string)
    (clientId mechanicId : option Z) (date : option string) :
  ∃ l, findAll userId userRole status clientId mechanicId date s
       = (Returned l, s)
    ∧ (∀ a, a ∈ l ↔
         ∃ id c, appointments s !! id = Some c
                 ∧ a = hydrate s listing_relations id c
                 ∧ in_scope userId userRole clientId mechanicId c
                 ∧ (∀ st, status = Some st → st ≠ "" →
                      status_literal (Appointment.status c) = st)
                 ∧ (∀ d, date = Some d → d ≠ "" → Appointment.date c = d))
    ∧ (status = None →
       ∀ id c, appointments s !! id = Some c →
               in_scope userId userRole clientId mechanicId c →
               (∀ d, date = Some d → d ≠ "" → Appointment.date c = d) →
               hydrate s listing_relations id c ∈ l)
    ∧ StronglySorted by_date_then_hour l.
Proof.
  destruct (findAll_returns s userId userRole status clientId mechanicId date)
    as (l & Hrun & Hin & Hsorted).
  exists l. split_and!; try done.
  intros -> id c Hc Hscope Hdate. apply Hin. exists id, c.
  by split_and!.
Qed.

(** * Beyond the stated claims *)

(** ** Accepting and rejecting *)

Lemma hydrate_decided s rels id c st r :
  Appointment.set_rejectionReason r
    (Appointment.set_status st (hydrate s rels id c))
  = hydrate s rels id (decided_columns st r c).
Proof. by destruct c. Qed.

Lemma hydrate_status s rels id c st :
  Appointment.set_status st (hydrate s rels id c)
  = hydrate s rels id (decided_columns st (Appointment.rejectionReason c) c).
Proof. by destruct c. Qed.

Lemma acceptAppointment_run (s : State) (appointmentId mechanicId : Z) :
  acceptAppointment appointmentId mechanicId s
  = match appointments s !! appointmentId with
    | None => (Thrown (NotFoundException "Appointment not found"), s)
    | Some c =>
        if bool_decide (Appointment.mechanicId c ≠ mechanicId)
        then (Thrown (ForbiddenException
          "You cannot modify appointments that have not been assigned to you"),
              s)
        else if bool_decide (Appointment.status c ≠ PENDING)
        then (Thrown (BadRequestException
                        "Only pending appointments can be accepted"), s)
        else
          let c' := decided_columns ACCEPTED (Appointment.rejectionReason c) c
          in
          let s1 := store_columns appointmentId c' s in
          match vehicles s !! Appointment.vehicleId c with
          | None => (Thrown (TypeError "Cannot read properties of null"), s1)
          | Some vehicle =>
              (Returned (hydrate s all_relations appointmentId c'),
               (notificationsService_createNotification
                  (accepted_notification c vehicle appointmentId) s1).2)
          end
    end.
Proof.
  unfold acceptAppointment.
  rewrite (bind_returned _ _ _ _ _ (findOne_at _ _ _)).
  destruct (appointments s !! appointmentId) as [c|] eqn:Hc; [|done].
  cbn [fmap option_fmap option_map].
  cbn [hydrate Appointment.columns].
  do 2 (case_bool_decide; [done|]).
  rewrite hydrate_status. unfold bind, appointmentRepository_save.
  cbn. destruct (vehicles s !! Appointment.vehicleId c); by destruct c.
Qed.

Lemma rejectAppointment_run (s : State) (appointmentId mechanicId : Z)
    (dto : RejectAppointmentDto.t) :
  rejectAppointment appointmentId mechanicId dto s
  = match appointments s !! appointmentId with
    | None => (Thrown (NotFoundException "Cita no encontrada"), s)
    | Some c =>
        if bool_decide (Appointment.mechanicId c ≠ mechanicId)
        then (Thrown (ForbiddenException
                "No puedes modificar citas que no te han sido asignadas"), s)
        else if bool_decide (Appointment.status c ≠ PENDING)
        then (Thrown (BadRequestException
                        "Solo las citas pendientes pueden ser rechazadas"), s)
        else
          let reason := RejectAppointmentDto.rejectionReason dto in
          let c' := decided_columns REJECTED (Some reason) c in
          let s1 := store_columns appointmentId c' s in
          match schedulesService_addHourToSchedule
                  (Appointment.scheduleId c) (Appointment.hour c) s1 with
          | (Thrown e, s2) => (Thrown e, s2)
          | (Returned _, s2) =>
              (Returned (hydrate s all_relations appointmentId c'),
               (notificationsService_createNotification
                  (rejected_notification c reason appointmentId) s2).2)
          end
    end.
Proof.
  unfold rejectAppointment.
  rewrite (bind_returned _ _ _ _ _ (findOne_at _ _ _)).
  destruct (appointments s !! appointmentId) as [c|] eqn:Hc; [|done].
  cbn [fmap option_fmap option_map].
  cbn [hydrate Appointment.columns].
  do 2 (case_bool_decide; [done|]).
  cbv zeta. rewrite hydrate_decided.
  unfold bind at 1. unfold appointmentRepository_save at 1.
  cbn [hydrate Appointment.id Appointment.columns].
  unfold bind at 1. fold (store_columns appointmentId
    (decided_columns REJECTED
       (Some (RejectAppointmentDto.rejectionReason dto)) c) s).
  destruct c; cbn [decided_columns Appointment.scheduleId Appointment.hour
                     Appointment.clientId].
  by destruct (schedulesService_addHourToSchedule _ _ _) as [[[]|e] s2].
Qed.

(** X1: [acceptAppointment] checks, in this order, that the appointment
    exists (else NotFound), that the caller is its assigned mechanic (else
    Forbidden) and that it is still pending (else BadRequest); a failed
    check leaves the store as it was.  Otherwise the appointment is stored
    as [accepted], every other column and every other appointment as
    before, and no schedule is touched: the slot stays consumed.  One
    notification, for the owning client and carrying the appointment id,
    is then queued; only if the vehicle row is gone does the call throw
    after the save, without queuing anything. *)
Theorem acceptAppointment_decides (s : State) (appointmentId mechanicId : Z) :
  let r := acceptAppointment appointmentId mechanicId s in
  match appointments s !! appointmentId with
  | None => r = (Thrown (NotFoundException "Appointment not found"), s)
  | Some c =>
    if decide (Appointment.mechanicId c ≠ mechanicId)
    then r = (Thrown (ForbiddenException
          "You cannot modify appointments that have not been assigned to you"),
              s)
    else if decide (Appointment.status c ≠ PENDING)
    then r = (Thrown (BadRequestException
                        "Only pending appointments can be accepted"), s)
    else
      let c' := decided_columns ACCEPTED (Appointment.rejectionReason c) c in
      appointments r.2 = <[appointmentId := c']> (appointments s)
      ∧ schedules r.2 = schedules s
      ∧ match vehicles s !! Appointment.vehicleId c with
        | Some vehicle =>
            r.1 = Returned (hydrate s all_relations appointmentId c')
            ∧ notifications r.2
              = (notifications s
                   ++ [accepted_notification c vehicle appointmentId])%list
        | None =>
            (∃ msg, r.1 = Thrown (TypeError msg))
            ∧ notifications r.2 = notifications s
        end
  end.
Proof.
  cbv zeta. rewrite acceptAppointment_run.
  destruct (appointments s !! appointmentId) as [c|]; [|done].
  destruct (decide (Appointment.mechanicId c ≠ mechanicId)).
  { by rewrite bool_decide_eq_true_2 by done. }
  rewrite bool_decide_eq_false_2 by done.
  destruct (decide (Appointment.status c ≠ PENDING)).
  { by rewrite bool_decide_eq_true_2 by done. }
  rewrite bool_decide_eq_false_2 by done.
  destruct (vehicles s !! Appointment.vehicleId c); cbn; eauto 10.
Qed.

(** X2: [rejectAppointment] checks, in this order, that the appointment
    exists (else NotFound), that the caller is its assigned mechanic (else
    Forbidden) and that it is still pending (else BadRequest); a failed
    check leaves the store as it was.  Otherwise it writes, in this order:
    the appointment as [rejected] with the given reason, the appointment's
    hour back into its schedule, and one notification for the owning client
    whose message ends with the reason.  If the schedule row is gone the
    call throws NotFound after the save, with nothing else written. *)
Theorem rejectAppointment_decides (s : State) (appointmentId mechanicId : Z)
    (dto : RejectAppointmentDto.t) :
  let r := rejectAppointment appointmentId mechanicId dto s in
  let reason := RejectAppointmentDto.rejectionReason dto in
  match appointments s !! appointmentId with
  | None => r = (Thrown (NotFoundException "Cita no encontrada"), s)
  | Some c =>
    if decide (Appointment.mechanicId c ≠ mechanicId)
    then r = (Thrown (ForbiddenException
                "No puedes modificar citas que no te han sido asignadas"), s)
    else if decide (Appointment.status c ≠ PENDING)
    then r = (Thrown (BadRequestException
                        "Solo las citas pendientes pueden ser rechazadas"), s)
    else
      let c' := decided_columns REJECTED (Some reason) c in
      let sid := Appointment.scheduleId c in
      let h := Appointment.hour c in
      let n := rejected_notification c reason appointmentId in
      appointments r.2 = <[appointmentId := c']> (appointments s)
      ∧ match schedules s !! sid with
        | Some sch =>
            r.1 = Returned (hydrate s all_relations appointmentId c')
            ∧ log r.2
              = (log s ++ [AppointmentSaved appointmentId c';
                           HourAdded sid h; NotificationCreated n])%list
            ∧ notifications r.2 = (notifications s ++ [n])%list
            ∧ (∃ hs, hours_at r.2 sid = Some hs
                     ∧ ∀ x, x ∈ hs ↔ x ∈ Schedule.availableHours sch ∨ x = h)
        | None =>
            (∃ msg, r.1 = Thrown (NotFoundException msg))
            ∧ log r.2 = (log s ++ [AppointmentSaved appointmentId c'])%list
            ∧ notifications r.2 = notifications s
            ∧ schedules r.2 = schedules s
        end
  end.
Proof.
  cbv zeta. rewrite rejectAppointment_run.
  destruct (appointments s !! appointmentId) as [c|]; [|done].
  destruct (decide (Appointment.mechanicId c ≠ mechanicId)).
  { by rewrite bool_decide_eq_true_2 by done. }
  rewrite bool_decide_eq_false_2 by done.
  destruct (decide (Appointment.status c ≠ PENDING)).
  { by rewrite bool_decide_eq_true_2 by done. }
  rewrite bool_decide_eq_false_2 by done.
  cbv zeta. unfold schedulesService_addHourToSchedule, hours_at.
  cbn [store_columns schedules].
  destruct (schedules s !! Appointment.scheduleId c) as [sch|] eqn:Hs; cbn.
  - split_and!; try done.
    + by rewrite <- !app_assoc.
    + rewrite lookup_insert_eq. cbn. eexists. split; [done|].
      intros x. case_bool_decide as Hin.
      * split; [by left|]. by intros [?| ->].
      * rewrite elem_of_app, list_elem_of_singleton. done.
  - eauto 10.
Qed.

(** X3: [updateAppointmentStatus] is [updateAppointment] called for a
    mechanic: on every store and every request the two return or throw the
    same and leave the same store. *)
Theorem updateAppointmentStatus_is_mechanic_update (s : State)
    (appointmentId mechanicId : Z) (dto : UpdateAppointmentDto.t) :
  updateAppointmentStatus appointmentId mechanicId dto s
  = updateAppointment appointmentId mechanicId ROLE.MECHANIC dto s.
Proof.
  unfold updateAppointmentStatus, updateAppointment.
  rewrite !(bind_returned _ _ _ _ _ (findOne_at _ _ _)).
  destruct (appointments s !! appointmentId) as [c|]; [|done].
  cbn [fmap option_fmap option_map].
  rewrite (bool_decide_eq_true_2 (ROLE.MECHANIC = ROLE.MECHANIC)) by done.
  rewrite (bool_decide_eq_false_2 (ROLE.MECHANIC = ROLE.CLIENT))
    by discriminate.
  cbn [andb]. by case_bool_decide.
Qed.

(** ** What a call does to the store as a whole *)

Lemma frame_refl (s : State) : frame s s.
Proof. by split. Qed.

Lemma frame_trans (s1 s2 s3 : State) : frame s1 s2 → frame s2 s3 → frame s1 s3.
Proof.
  intros [] []. split; try congruence; try (by etrans); lia.
Qed.

Lemma save_frame a s : frame s (appointmentRepository_save a s).2.
Proof.
  unfold appointmentRepository_save.
  destruct (Appointment.id a); split; cbn; try done;
    try (by apply prefix_app_r); lia.
Qed.

Lemma store_columns_frame id c s : frame s (store_columns id c s).
Proof. split; cbn; try done. by apply prefix_app_r. Qed.

Lemma notify_frame n s :
  frame s (notificationsService_createNotification n s).2.
Proof. split; cbn; try done; by apply prefix_app_r. Qed.

Lemma addHour_frame sid h s :
  frame s (schedulesService_addHourToSchedule sid h s).2.
Proof.
  unfold schedulesService_addHourToSchedule.
  destruct (schedules s !! sid); [|apply frame_refl].
  split; cbn; try done. by apply prefix_app_r.
Qed.

Lemma addHour_release sid h s :
  release s (schedulesService_addHourToSchedule sid h s).2 sid h.
Proof.
  unfold schedulesService_addHourToSchedule, release.
  destruct (schedules s !! sid) as [sch|] eqn:Hs; [right|by left].
  eexists _, _. split_and!; [done..|]. cbn. intros x.
  case_bool_decide as Hin.
  - split; [by left|]. by intros [?| ->].
  - by rewrite elem_of_app, list_elem_of_singleton.
Qed.

Lemma addHour_appointments sid h s :
  appointments (schedulesService_addHourToSchedule sid h s).2
  = appointments s.
Proof.
  unfold schedulesService_addHourToSchedule.
  by destruct (schedules s !! sid).
Qed.

Lemma release_frame_appointments s s1 s' sid h :
  schedules s1 = schedules s → release s1 s' sid h → release s s' sid h.
Proof. unfold release. by intros ->. Qed.

Lemma createAppointment_touches clientId dto s :
  touches s (createAppointment clientId dto s).2
  ∧ frame s (createAppointment clientId dto s).2.
Proof.
  destruct (booking_failure s clientId dto) as [e|] eqn:Hf.
  { rewrite (createAppointment_failure _ _ _ _ Hf).
    split; [by apply touches_nothing|apply frame_refl]. }
  destruct (booking_failure_None _ _ _ Hf) as (m & v & c & sch & Hb).
  rewrite (createAppointment_success _ _ _ _ _ _ _ Hb). split.
  - eapply touches_book; [done..|]. cbn. intros x.
    rewrite list_elem_of_filter. tauto.
  - split; cbn; try done; try lia.
    + by apply prefix_app_r.
    + rewrite <- !app_assoc. by apply prefix_app_r.
Qed.

Lemma updated_same_slot c dto : same_slot c (updated_columns c dto).
Proof. by repeat split. Qed.

Lemma apply_update_touches s rels id c dto :
  appointments s !! id = Some c →
  Appointment.status c = PENDING →
  touches s (apply_update (hydrate s rels id c) dto s).2
  ∧ frame s (apply_update (hydrate s rels id c) dto s).2.
Proof.
  intros Hc Hst.
  destruct (decide (UpdateAppointmentDto.status dto = Some REJECTED
                    ∧ truthy_string
                        (UpdateAppointmentDto.rejectionReason dto) = false))
    as [[Hrej Hrr]|Hok].
  - rewrite apply_update_missing_reason by done.
    split; [by apply touches_nothing|apply frame_refl].
  - destruct (apply_update_ok s rels id c dto Hok) as (a & -> & _).
    split; [|apply store_columns_frame].
    eapply touches_update; [done|done|apply updated_same_slot|done..].
Qed.

Lemma updateAppointment_touches appointmentId userId userRole dto s :
  touches s (updateAppointment appointmentId userId userRole dto s).2
  ∧ frame s (updateAppointment appointmentId userId userRole dto s).2.
Proof.
  unfold updateAppointment.
  rewrite (bind_returned _ _ _ _ _ (findOne_at _ _ _)).
  destruct (appointments s !! appointmentId) as [c|] eqn:Hc;
    [|split; [by apply touches_nothing|apply frame_refl]].
  cbn [fmap option_fmap option_map hydrate Appointment.columns].
  split_guards;
    try (split; [by apply touches_nothing|apply frame_refl]).
  apply apply_update_touches; [done|by apply pending_of_guard].
Qed.

Lemma updateAppointmentStatus_touches appointmentId mechanicId dto s :
  touches s (updateAppointmentStatus appointmentId mechanicId dto s).2
  ∧ frame s (updateAppointmentStatus appointmentId mechanicId dto s).2.
Proof.
  unfold updateAppointmentStatus.
  rewrite (bind_returned _ _ _ _ _ (findOne_at _ _ _)).
  destruct (appointments s !! appointmentId) as [c|] eqn:Hc;
    [|split; [by apply touches_nothing|apply frame_refl]].
  cbn [fmap option_fmap option_map hydrate Appointment.columns].
  split_guards;
    try (split; [by apply touches_nothing|apply frame_refl]).
  apply apply_update_touches; [done|by apply pending_of_guard].
Qed.

Lemma decided_same_slot st r c : same_slot c (decided_columns st r c).
Proof. by repeat split. Qed.

Lemma acceptAppointment_touches appointmentId mechanicId s :
  touches s (acceptAppointment appointmentId mechanicId s).2
  ∧ frame s (acceptAppointment appointmentId mechanicId s).2.
Proof.
  rewrite acceptAppointment_run.
  destruct (appointments s !! appointmentId) as [c|] eqn:Hc;
    [|split; [by apply touches_nothing|apply frame_refl]].
  case_bool_decide; [split; [by apply touches_nothing|apply frame_refl]|].
  case_bool_decide as Hst;
    [split; [by apply touches_nothing|apply frame_refl]|].
  cbv zeta.
  destruct (vehicles s !! Appointment.vehicleId c); split.
  - eapply touches_update; [done|done|apply decided_same_slot|done..].
  - eapply frame_trans; [apply store_columns_frame|apply notify_frame].
  - eapply touches_update; [done|done|apply decided_same_slot|done..].
  - apply store_columns_frame.
Qed.

Lemma rejectAppointment_touches appointmentId mechanicId dto s :
  touches s (rejectAppointment appointmentId mechanicId dto s).2
  ∧ frame s (rejectAppointment appointmentId mechanicId dto s).2.
Proof.
  rewrite rejectAppointment_run.
  destruct (appointments s !! appointmentId) as [c|] eqn:Hc;
    [|split; [by apply touches_nothing|apply frame_refl]].
  case_bool_decide; [split; [by apply touches_nothing|apply frame_refl]|].
  case_bool_decide as Hst;
    [split; [by apply touches_nothing|apply frame_refl]|].
  cbv zeta.
  set (c' := decided_columns REJECTED _ c).
  pose proof (addHour_release (Appointment.scheduleId c) (Appointment.hour c)
                (store_columns appointmentId c' s)) as Hrel.
  pose proof (addHour_frame (Appointment.scheduleId c) (Appointment.hour c)
                (store_columns appointmentId c' s)) as Hfr.
  pose proof (addHour_appointments (Appointment.scheduleId c)
                (Appointment.hour c) (store_columns appointmentId c' s))
    as Happ.
  destruct (schedulesService_addHourToSchedule _ _ _) as [[[]|e] s2];
    cbn [snd] in *.
  - split.
    + eapply (touches_reject _ _ appointmentId c c'); try done.
    + eapply frame_trans; [apply store_columns_frame|].
      eapply frame_trans; [done|apply notify_frame].
  - split.
    + eapply (touches_reject _ _ appointmentId c c'); try done.
    + eapply frame_trans; [apply store_columns_frame|done].
Qed.

Lemma deleteAppointment_touches id userId s :
  touches s (deleteAppointment id userId s).2
  ∧ frame s (deleteAppointment id userId s).2.
Proof.
  rewrite deleteAppointment_run.
  destruct (appointments s !! id) as [c|] eqn:Hc;
    [|split; [by apply touches_nothing|apply frame_refl]].
  case_bool_decide; [split; [by apply touches_nothing|apply frame_refl]|].
  destruct (bool_decide (Appointment.status c ≠ PENDING) && _) eqn:Hguard;
    [split; [by apply touches_nothing|apply frame_refl]|].
  set (s1 := (appointmentRepository_delete id s).2).
  pose proof (addHour_release (Appointment.scheduleId c) (Appointment.hour c)
                s1) as Hrel.
  pose proof (addHour_frame (Appointment.scheduleId c) (Appointment.hour c)
                s1) as Hfr.
  pose proof (addHour_appointments (Appointment.scheduleId c)
                (Appointment.hour c) s1) as Happ.
  split.
  - eapply (touches_cancel _ _ id c); try done.
    intros Hst. by rewrite Hst in Hguard.
  - eapply frame_trans; [|done]. split; cbn; try done.
    by apply prefix_app_r.
Qed.

Lemma handle_touches (req : Request) (s : State) :
  touches s (handle req s) ∧ frame s (handle req s).
Proof.
  destruct req; cbn [handle].
  - apply createAppointment_touches.
  - split; [by apply touches_nothing|apply frame_refl].
  - split; [by apply touches_nothing|apply frame_refl].
  - split; [by apply touches_nothing|apply frame_refl].
  - apply updateAppointment_touches.
  - apply updateAppointmentStatus_touches.
  - apply acceptAppointment_touches.
  - apply rejectAppointment_touches.
  - rewrite getAppointmentById_run.
    destruct (appointments s !! id);
      (split; [by apply touches_nothing|apply frame_refl]).
  - apply deleteAppointment_touches.
Qed.

(** ** Invariants of the store *)

Lemma release_is_Some s s' sid h x :
  release s s' sid h →
  is_Some (schedules s !! x) → is_Some (schedules s' !! x).
Proof.
  intros [[_ ->]|(sch & sch' & Hs & -> & _)] Hx; [done|].
  destruct (decide (sid = x)) as [->|Hne].
  - rewrite lookup_insert_eq. eauto.
  - by rewrite lookup_insert_ne.
Qed.

(** Putting an hour back keeps every slot held once, provided the
    appointment that held it is no longer among the active ones. *)
Lemma release_slots (s s' : State) (id : Z) (c : Appointment.Columns) :
  slots_held_once s →
  appointments s !! id = Some c →
  Appointment.status c ≠ REJECTED →
  release s s' (Appointment.scheduleId c) (Appointment.hour c) →
  (∀ i ci, appointments s' !! i = Some ci →
           Appointment.status ci ≠ REJECTED →
           i ≠ id ∧ appointments s !! i = Some ci) →
  slots_held_once s'.
Proof.
  intros [I1 I2] Hc Hact Hrel Hback. split.
  - intros i ci sch0 Hi Hai Hsch.
    destruct (Hback i ci Hi Hai) as [Hne Hi0].
    destruct Hrel as [[_ Hs]|(sch & sch' & Hs & Hs' & Hmem)].
    { rewrite Hs in Hsch. by eapply I1. }
    rewrite Hs' in Hsch.
    destruct (decide (Appointment.scheduleId c = Appointment.scheduleId ci))
      as [Heq|Hneq].
    + rewrite Heq, lookup_insert_eq in Hsch. injection Hsch as <-.
      rewrite Hmem. intros [Hin|Hh].
      * eapply (I1 i ci sch); [done|done| |done]. by rewrite <- Heq.
      * apply Hne. by apply (I2 i id ci c).
    + rewrite lookup_insert_ne in Hsch by done. by eapply I1.
  - intros i j ci cj Hi Hj Hai Haj Hsid Hh.
    destruct (Hback i ci Hi Hai) as [_ Hi0].
    destruct (Hback j cj Hj Haj) as [_ Hj0].
    by apply (I2 i j ci cj).
Qed.

Lemma touches_slots (s s' : State) :
  fresh_ids s → touches s s' → slots_held_once s → slots_held_once s'.
Proof.
  intros Hfresh Ht Hinv. pose proof Hinv as [I1 I2].
  destruct Ht as [Ha Hs|clientId dto m v cl sch sch' Hb Ha Hs Hmem
                 |id c c' Hc Hp Hsame Ha Hs|id c c' Hc Hp Hsame Hrej Ha Hrel
                 |id c Hc Hact Ha Hrel].
  - unfold slots_held_once. by rewrite Ha, Hs.
  - assert (appointments s !! nextAppointmentId s = None) as Hnew.
    { destruct (appointments s !! nextAppointmentId s) eqn:Hn; [|done].
      apply Hfresh in Hn. cbn in Hn. lia. }
    destruct Hb as [_ _ _ _ _ Hsch Hhour].
    split.
    + intros i ci sch0 Hi Hai Hs0. rewrite Ha in Hi. rewrite Hs in Hs0.
      destruct (decide (nextAppointmentId s = i)) as [<-|Hne].
      * rewrite lookup_insert_eq in Hi. injection Hi as <-.
        cbn in Hs0. rewrite lookup_insert_eq in Hs0. injection Hs0 as <-.
        cbn. rewrite Hmem. by intros [_ ?].
      * rewrite lookup_insert_ne in Hi by done.
        destruct (decide (CreateAppointmentDto.scheduleId dto
                          = Appointment.scheduleId ci)) as [Heq|Hneq].
        -- rewrite <- Heq, lookup_insert_eq in Hs0. injection Hs0 as <-.
           rewrite Hmem. intros [Hin _].
           eapply (I1 i ci sch); [done|done| |done]. by rewrite <- Heq.
        -- rewrite lookup_insert_ne in Hs0 by done. by eapply I1.
    + intros i j ci cj Hi Hj Hai Haj Hsid Hh. rewrite Ha in Hi, Hj.
      destruct (decide (nextAppointmentId s = i)) as [<-|Hni],
        (decide (nextAppointmentId s = j)) as [<-|Hnj]; [done|..].
      * rewrite lookup_insert_eq in Hi. injection Hi as <-.
        rewrite lookup_insert_ne in Hj by done. cbn in Hsid, Hh.
        exfalso. eapply (I1 j cj sch); [done|done| |].
        -- by rewrite <- Hsid.
        -- by rewrite <- Hh.
      * rewrite lookup_insert_eq in Hj. injection Hj as <-.
        rewrite lookup_insert_ne in Hi by done. cbn in Hsid, Hh.
        exfalso. eapply (I1 i ci sch); [done|done| |].
        -- by rewrite Hsid.
        -- by rewrite Hh.
      * rewrite lookup_insert_ne in Hi, Hj by done. by apply (I2 i j ci cj).
  - destruct Hsame as (_ & _ & _ & Hsid & Hh & _).
    assert (∀ i ci, appointments s' !! i = Some ci →
              Appointment.status ci ≠ REJECTED →
              ∃ ci0, appointments s !! i = Some ci0
                     ∧ Appointment.status ci0 ≠ REJECTED
                     ∧ Appointment.scheduleId ci0 = Appointment.scheduleId ci
                     ∧ Appointment.hour ci0 = Appointment.hour ci) as Hback.
    { intros i ci Hi Hai. rewrite Ha in Hi.
      destruct (decide (id = i)) as [<-|Hne].
      - rewrite lookup_insert_eq in Hi. injection Hi as <-.
        exists c. split_and!; try done. by rewrite Hp.
      - rewrite lookup_insert_ne in Hi by done. by exists ci. }
    split.
    + intros i ci sch0 Hi Hai Hs0. rewrite Hs in Hs0.
      destruct (Hback i ci Hi Hai) as (ci0 & Hi0 & Hai0 & Hsid0 & Hh0).
      rewrite <- Hh0. eapply (I1 i ci0 sch0); [done|done|].
      by rewrite Hsid0.
    + intros i j ci cj Hi Hj Hai Haj Hsidij Hhij.
      destruct (Hback i ci Hi Hai) as (ci0 & Hi0 & Hai0 & Hsid0 & Hh0).
      destruct (Hback j cj Hj Haj) as (cj0 & Hj0 & Haj0 & Hsidj & Hhj).
      apply (I2 i j ci0 cj0); try done; congruence.
  - eapply (release_slots s s' id c); try done.
    + by rewrite Hp.
    + intros i ci Hi Hai. rewrite Ha in Hi.
      destruct (decide (id = i)) as [<-|Hne].
      * rewrite lookup_insert_eq in Hi. injection Hi as <-. done.
      * by rewrite lookup_insert_ne in Hi.
  - eapply (release_slots s s' id c); try done.
    intros i ci Hi Hai. rewrite Ha in Hi.
    destruct (decide (id = i)) as [<-|Hne].
    + by rewrite lookup_delete_eq in Hi.
    + by rewrite lookup_delete_ne in Hi.
Qed.

Lemma touches_references (s s' : State) :
  touches s s' → frame s s' → references_resolve s → references_resolve s'.
Proof.
  intros Ht [Hu Hv _ _ _] Hrefs. unfold references_resolve.
  rewrite Hu, Hv.
  destruct Ht as [Ha Hs|clientId dto m v cl sch sch' Hb Ha Hs Hmem
                 |id c c' Hc Hp Hsame Ha Hs|id c c' Hc Hp Hsame Hrej Ha Hrel
                 |id c Hc Hact Ha Hrel].
  - rewrite Ha, Hs. apply Hrefs.
  - intros i ci Hi. rewrite Ha in Hi. rewrite Hs.
    destruct (decide (nextAppointmentId s = i)) as [<-|Hne].
    + rewrite lookup_insert_eq in Hi. injection Hi as <-.
      destruct Hb as [Hm Hr Hveh Ho Hcl Hsch _]. cbn.
      rewrite lookup_insert_eq. split_and!; eauto.
    + rewrite lookup_insert_ne in Hi by done.
      destruct (Hrefs i ci Hi) as (? & ? & ? & Hsome). split_and!; try done.
      destruct (decide (CreateAppointmentDto.scheduleId dto
                        = Appointment.scheduleId ci)) as [->|?].
      * rewrite lookup_insert_eq. eauto.
      * by rewrite lookup_insert_ne.
  - intros i ci Hi. rewrite Ha in Hi. rewrite Hs.
    destruct (decide (id = i)) as [<-|Hne].
    + rewrite lookup_insert_eq in Hi. injection Hi as <-.
      destruct Hsame as (-> & -> & -> & -> & _). by apply (Hrefs id).
    + rewrite lookup_insert_ne in Hi by done. by apply (Hrefs i).
  - intros i ci Hi. rewrite Ha in Hi.
    assert (∃ ci0, appointments s !! i = Some ci0 ∧ same_slot ci0 ci)
      as (ci0 & Hi0 & Hs0).
    { destruct (decide (id = i)) as [<-|Hne].
      - rewrite lookup_insert_eq in Hi. injection Hi as <-. by exists c.
      - rewrite lookup_insert_ne in Hi by done. exists ci.
        by repeat split. }
    destruct Hs0 as (-> & -> & -> & -> & _).
    destruct (Hrefs i ci0 Hi0) as (? & ? & ? & Hsome). split_and!; try done.
    by eapply release_is_Some.
  - intros i ci Hi. rewrite Ha in Hi.
    destruct (decide (id = i)) as [<-|Hne];
      [by rewrite lookup_delete_eq in Hi|].
    rewrite lookup_delete_ne in Hi by done.
    destruct (Hrefs i ci Hi) as (? & ? & ? & Hsome). split_and!; try done.
    by eapply release_is_Some.
Qed.

Lemma serve_snoc (history : list Request) (req : Request) (s : State) :
  serve (history ++ [req]) s = handle req (serve history s).
Proof. unfold serve. by rewrite foldl_app. Qed.

Lemma serve_frame (history : list Request) (s : State) :
  frame s (serve history s).
Proof.
  induction history as [|req history IH] using rev_ind; [apply frame_refl|].
  rewrite serve_snoc. eapply frame_trans; [done|]. apply handle_touches.
Qed.

(** X4: no slot is ever held twice.  In a store with fresh ids where every
    pending or accepted appointment keeps its hour out of its schedule and
    no two of them hold the same hour of the same schedule (any store
    without appointments is one), every sequence of service calls leaves a
    store of the same kind: called one after the other, the service never
    books a slot that a pending or accepted appointment holds, and never
    offers one again while it is held. *)
Theorem slots_are_held_once (s0 : State) (history : list Request) :
  fresh_ids s0 → slots_held_once s0 → slots_held_once (serve history s0).
Proof.
  intros Hfresh Hinv.
  induction history as [|req history IH] using rev_ind; [done|].
  rewrite serve_snoc. eapply touches_slots; [|apply handle_touches|done].
  by apply serve_fresh.
Qed.

(** X5: what appointments refer to stays resolvable.  If every stored
    appointment names a user with role [mechanic], a vehicle owned by its
    client, an existing client and an existing schedule, then so it is
    after every sequence of service calls: bookings only store references
    they have just resolved, and no call of the service removes a user, a
    vehicle or a schedule or changes a stored reference. *)
Theorem references_stay_resolved (s0 : State) (history : list Request) :
  references_resolve s0 → references_resolve (serve history s0).
Proof.
  intros Hinv.
  induction history as [|req history IH] using rev_ind; [done|].
  rewrite serve_snoc.
  eapply touches_references; [apply handle_touches..|done].
Qed.

(** X6: no call of the service writes a user or a vehicle, takes back a
    queued notification or a logged write, or lowers the id counter; and
    the reading calls (findAll, getAppointmentsByClient,
    getAppointmentsByMechanic, getAppointmentById) write nothing at all. *)
Theorem service_calls_frame (s0 : State) (history : list Request)
    (req : Request) :
  let s := serve history s0 in
  let s' := handle req s in
  users s' = users s0
  ∧ vehicles s' = vehicles s0
  ∧ notifications s0 `prefix_of` notifications s'
  ∧ log s0 `prefix_of` log s'
  ∧ (nextAppointmentId s0 ≤ nextAppointmentId s')%Z
  ∧ (path req = Reading → s' = s).
Proof.
  cbv zeta.
  pose proof (serve_frame (history ++ [req]) s0) as [Hu Hv Hn Hl Hi].
  rewrite serve_snoc in *. split_and!; try done.
  destruct req; try discriminate; intros _; cbn [handle]; try done.
  rewrite getAppointmentById_run. by destruct (appointments _ !! id).
Qed.

Lemma no_appointments_slots (s : State) :
  appointments s = ∅ → slots_held_once s.
Proof.
  intros He. split; intros *; rewrite He, lookup_empty; done.
Qed.

Lemma no_appointments_references (s : State) :
  appointments s = ∅ → references_resolve s.
Proof. intros He i c. by rewrite He, lookup_empty. Qed.

Lemma slots_are_held_once_witness :
  let history := [CreateAppointment 10 Sample.booking;
                  CreateAppointment 10 Sample.booking;
                  RejectAppointment 1 20
                    (RejectAppointmentDto.mk "no disponible");
                  CreateAppointment 10 Sample.booking] in
  fresh_ids Sample.garage
  ∧ slots_held_once Sample.garage
  ∧ status_at (serve history Sample.garage) 1 = Some REJECTED
  ∧ status_at (serve history Sample.garage) 2 = Some PENDING
  ∧ slots_held_once (serve history Sample.garage).
Proof.
  cbv zeta.
  assert (fresh_ids Sample.garage) as Hfresh by apply map_Forall_empty.
  assert (slots_held_once Sample.garage) as Hslots
    by by apply no_appointments_slots.
  split_and!; [done|done|vm_compute; reflexivity..|].
  exact (slots_are_held_once Sample.garage _ Hfresh Hslots).
Defined.

Lemma references_stay_resolved_witness :
  references_resolve Sample.garage
  ∧ references_resolve
      (serve [CreateAppointment 10 Sample.booking; AcceptAppointment 1 20]
             Sample.garage).
Proof.
  assert (references_resolve Sample.garage) as Hrefs
    by by apply no_appointments_references.
  split; [done|].
  exact (references_stay_resolved Sample.garage _ Hrefs).
Defined.

(** ** Booking, then giving the slot back *)

Lemma fresh_next_unused (s : State) :
  fresh_ids s → appointments s !! nextAppointmentId s = None.
Proof.
  intros Hfresh.
  destruct (appointments s !! nextAppointmentId s) eqn:Hn; [|done].
  apply Hfresh in Hn. cbn in Hn. lia.
Qed.

Lemma hours_back (h : string) (hs : list string) :
  h ∈ hs →
  let removed := filter (λ x, x ≠ h) hs in
  ∀ x, x ∈ (if bool_decide (h ∈ removed) then removed
            else (removed ++ [h])%list) ↔ x ∈ hs.
Proof.
  intros Hin removed x.
  rewrite bool_decide_eq_false_2.
  2:{ unfold removed. rewrite list_elem_of_filter. by intros [? _]. }
  unfold removed.
  rewrite elem_of_app, list_elem_of_filter, list_elem_of_singleton.
  split; [by intros [[_ ?]| ->]|].
  intros Hx. destruct (decide (x = h)); [by right|by left].
Qed.

(** X7: booking and then cancelling gives the slot back.  After a
    booking that returned, on a store with fresh ids, the client's
    [deleteAppointment] of the new appointment returns; the appointment
    table, the users and the vehicles are then what they were before the
    booking, every other schedule is untouched, and the booked schedule
    offers the same hours as before the booking, the booked hour among
    them. *)
Theorem booking_then_cancelling (s s1 : State) (clientId : Z)
    (dto : CreateAppointmentDto.t) (a : Appointment.t) :
  fresh_ids s →
  createAppointment clientId dto s = (Returned a, s1) →
  let sid := CreateAppointmentDto.scheduleId dto in
  ∃ i s2 hs hs2,
    Appointment.id a = Some i
    ∧ deleteAppointment i clientId s1 = (Returned tt, s2)
    ∧ appointments s2 = appointments s
    ∧ users s2 = users s
    ∧ vehicles s2 = vehicles s
    ∧ hours_at s sid = Some hs
    ∧ hours_at s2 sid = Some hs2
    ∧ (∀ x, x ∈ hs2 ↔ x ∈ hs)
    ∧ CreateAppointmentDto.hour dto ∈ hs2
    ∧ (∀ k, k ≠ sid → schedules s2 !! k = schedules s !! k).
Proof.
  intros Hfresh Hrun. cbv zeta.
  destruct (booking_failure s clientId dto) as [e|] eqn:Hf.
  { rewrite (createAppointment_failure _ _ _ _ Hf) in Hrun. discriminate. }
  destruct (booking_failure_None _ _ _ Hf) as (m & v & c & sch & Hb).
  rewrite (createAppointment_success _ _ _ _ _ _ _ Hb) in Hrun.
  injection Hrun as <- <-. destruct Hb as [_ _ _ _ _ Hs Hh].
  pose proof (hours_back _ _ Hh) as Hback. cbv zeta in Hback.
  eexists (nextAppointmentId s), _, (Schedule.availableHours sch), _.
  split; [done|]. rewrite deleteAppointment_run.
  unfold after_booking. cbn [appointments]. rewrite lookup_insert_eq.
  cbn [booked_columns Appointment.clientId Appointment.status
         Appointment.scheduleId Appointment.hour].
  rewrite bool_decide_eq_false_2 by (by intros ?).
  rewrite (bool_decide_eq_false_2 (PENDING ≠ PENDING)) by (by intros ?).
  cbn [andb]. unfold schedulesService_addHourToSchedule,
    appointmentRepository_delete, hours_at. cbn.
  rewrite lookup_insert_eq. cbn. split; [reflexivity|].
  unfold write_schedule. cbn. rewrite lookup_insert_eq, Hs. cbn.
  split_and!; try done.
  - by apply delete_insert_id, fresh_next_unused.
  - by apply Hback.
  - intros k Hk. by rewrite !lookup_insert_ne.
Qed.

Lemma booking_then_cancelling_witness :
  fresh_ids Sample.garage
  ∧ ∃ i s2 hs hs2,
      Some 1 = Some i
      ∧ deleteAppointment i 10 Sample.booked = (Returned tt, s2)
      ∧ appointments s2 = appointments Sample.garage
      ∧ users s2 = users Sample.garage
      ∧ vehicles s2 = vehicles Sample.garage
      ∧ hours_at Sample.garage 5 = Some hs
      ∧ hours_at s2 5 = Some hs2
      ∧ (∀ x, x ∈ hs2 ↔ x ∈ hs)
      ∧ "10:00" ∈ hs2
      ∧ (∀ k, k ≠ 5 → schedules s2 !! k = schedules Sample.garage !! k).
Proof.
  assert (fresh_ids Sample.garage) as Hfresh by apply map_Forall_empty.
  split; [done|].
  apply (booking_then_cancelling Sample.garage Sample.booked 10
           Sample.booking
           (Appointment.mk (Some 1) (booked_columns 10 Sample.booking)
              (Some Sample.ana) (Some Sample.mario) (Some Sample.car)
              (Some Sample.thursday)) Hfresh).
  vm_compute; reflexivity.
Defined.

(** X8: booking and then rejecting gives the slot back and keeps the
    record.  After a booking that returned, [rejectAppointment] by the
    booked mechanic returns; the appointment is then stored as [rejected]
    with the given reason, the booked schedule offers the same hours as
    before the booking, the booked hour among them, and the last queued
    notification tells the client the reason. *)
Theorem booking_then_rejecting (s s1 : State) (clientId : Z)
    (dto : CreateAppointmentDto.t) (a : Appointment.t)
    (reject : RejectAppointmentDto.t) :
  createAppointment clientId dto s = (Returned a, s1) →
  let sid := CreateAppointmentDto.scheduleId dto in
  let reason := RejectAppointmentDto.rejectionReason reject in
  ∃ i a2 s2 hs hs2,
    Appointment.id a = Some i
    ∧ rejectAppointment i (CreateAppointmentDto.mechanicId dto) reject s1
      = (Returned a2, s2)
    ∧ appointments s2 !! i
      = Some (decided_columns REJECTED (Some reason)
                              (booked_columns clientId dto))
    ∧ hours_at s sid = Some hs
    ∧ hours_at s2 sid = Some hs2
    ∧ (∀ x, x ∈ hs2 ↔ x ∈ hs)
    ∧ CreateAppointmentDto.hour dto ∈ hs2
    ∧ last (notifications s2)
      = Some (rejected_notification (booked_columns clientId dto) reason i).
Proof.
  intros Hrun. cbv zeta.
  destruct (booking_failure s clientId dto) as [e|] eqn:Hf.
  { rewrite (createAppointment_failure _ _ _ _ Hf) in Hrun. discriminate. }
  destruct (booking_failure_None _ _ _ Hf) as (m & v & c & sch & Hb).
  rewrite (createAppointment_success _ _ _ _ _ _ _ Hb) in Hrun.
  injection Hrun as <- <-. destruct Hb as [_ _ _ _ _ Hs Hh].
  pose proof (hours_back _ _ Hh) as Hback. cbv zeta in Hback.
  eexists (nextAppointmentId s), _, _, (Schedule.availableHours sch), _.
  split; [done|]. rewrite rejectAppointment_run.
  unfold after_booking. cbn [appointments]. rewrite lookup_insert_eq.
  cbn [booked_columns Appointment.mechanicId Appointment.status
         Appointment.scheduleId Appointment.hour].
  rewrite bool_decide_eq_false_2 by (by intros ?).
  rewrite (bool_decide_eq_false_2 (PENDING ≠ PENDING)) by (by intros ?).
  cbv zeta. unfold schedulesService_addHourToSchedule, hours_at. cbn.
  rewrite lookup_insert_eq. cbn. split; [reflexivity|].
  unfold write_schedule. cbn. rewrite !lookup_insert_eq, Hs. cbn.
  split_and!; try done.
  - by apply Hback.
  - by rewrite last_snoc.
Qed.

Lemma booking_then_rejecting_witness :
  createAppointment 10 Sample.booking Sample.garage
  = (Returned (Appointment.mk (Some 1) (booked_columns 10 Sample.booking)
                 (Some Sample.ana) (Some Sample.mario) (Some Sample.car)
                 (Some Sample.thursday)),
     Sample.booked)
  ∧ ∃ i a2 s2 hs hs2,
      Some 1 = Some i
      ∧ rejectAppointment i 20 (RejectAppointmentDto.mk "no disponible")
                          Sample.booked
        = (Returned a2, s2)
      ∧ appointments s2 !! i
        = Some (decided_columns REJECTED (Some "no disponible")
                                (booked_columns 10 Sample.booking))
      ∧ hours_at Sample.garage 5 = Some hs
      ∧ hours_at s2 5 = Some hs2
      ∧ (∀ x, x ∈ hs2 ↔ x ∈ hs)
      ∧ "10:00" ∈ hs2
      ∧ last (notifications s2)
        = Some (rejected_notification (booked_columns 10 Sample.booking)
                                      "no disponible" i).
Proof.
  split; [vm_compute; reflexivity|].
  apply (booking_then_rejecting Sample.garage Sample.booked 10
           Sample.booking
           (Appointment.mk (Some 1) (booked_columns 10 Sample.booking)
              (Some Sample.ana) (Some Sample.mario) (Some Sample.car)
              (Some Sample.thursday))
           (RejectAppointmentDto.mk "no disponible")).
  vm_compute; reflexivity.
Defined.

(** ** The other listings *)

(** The rows of a [find], whatever relations it joins. *)
Lemma find_rows (w : Where.t) (rels : list Relation) (s : State) :
  ∃ l, appointmentRepository_find w rels s = (Returned l, s)
       ∧ row_of <$> l
         = (λ r, (Some r.1, r.2))
             <$> merge_sort date_hour_le
                   (filter (λ r, Where.matches w r.2 = true)
                           (map_to_list (appointments s))).
Proof.
  eexists. split; [reflexivity|]. rewrite <- list_fmap_compose.
  by apply list_fmap_ext.
Qed.

Lemma find_once (w : Where.t) (rels : list Relation) (s : State)
    (l : list Appointment.t) :
  appointmentRepository_find w rels s = (Returned l, s) →
  NoDup (Appointment.id <$> l) ∧ (length l ≤ size (appointments s))%nat.
Proof.
  intros [= <-]. split.
  - rewrite <- list_fmap_compose.
    assert (Appointment.id ∘ (λ r, hydrate s rels r.1 r.2)
            = (Some ∘ fst : Z * Appointment.Columns → option Z)) as ->
      by done.
    rewrite list_fmap_compose. apply (NoDup_fmap_2 Some).
    rewrite merge_sort_Permutation.
    apply NoDup_fmap_fst.
    + intros i c1 c2 [_ H1%elem_of_map_to_list]%list_elem_of_filter
        [_ H2%elem_of_map_to_list]%list_elem_of_filter. congruence.
    + apply NoDup_filter, NoDup_map_to_list.
  - rewrite length_fmap, merge_sort_Permutation.
    etrans; [apply length_filter|]. by rewrite length_map_to_list.
Qed.

Lemma matches_clientId (clientId : Z) (c : Appointment.Columns) :
  Where.matches (Where.set_clientId (Some clientId) Where.empty) c = true
  ↔ Appointment.clientId c = clientId.
Proof.
  unfold Where.matches. cbn. rewrite !andb_true_r. apply bool_decide_eq_true.
Qed.

Lemma matches_mechanicId (mechanicId : Z) (c : Appointment.Columns) :
  Where.matches (Where.set_mechanicId (Some mechanicId) Where.empty) c = true
  ↔ Appointment.mechanicId c = mechanicId.
Proof.
  unfold Where.matches. cbn. rewrite !andb_true_r. apply bool_decide_eq_true.
Qed.

(** X9: [getAppointmentsByClient] returns exactly the stored appointments
    of that client, each once, with the mechanic and the vehicle joined
    (client and schedule are not), ordered by date and then hour; they are
    the same rows, in the same order, that [findAll] gives that client
    without filters. *)
Theorem getAppointmentsByClient_lists_own (s : State) (clientId : Z) :
  ∃ l, getAppointmentsByClient clientId s = (Returned l, s)
    ∧ (∀ a, a ∈ l ↔
         ∃ id c, appointments s !! id = Some c
                 ∧ Appointment.clientId c = clientId
                 ∧ a = Appointment.mk (Some id) c None
                         (users s !! Appointment.mechanicId c)
                         (vehicles s !! Appointment.vehicleId c) None)
    ∧ NoDup (Appointment.id <$> l)
    ∧ StronglySorted by_date_then_hour l
    ∧ ∃ l', findAll clientId ROLE.CLIENT None None None None s
            = (Returned l', s)
            ∧ row_of <$> l' = row_of <$> l.
Proof.
  unfold getAppointmentsByClient.
  destruct (find_returns (Where.set_clientId (Some clientId) Where.empty)
              [R_mechanic; R_vehicle] s) as (l & Hrun & Hin & Hsorted).
  exists l. split_and!; try done.
  - intros a. rewrite Hin. by setoid_rewrite matches_clientId.
  - by apply (find_once _ _ _ _ Hrun).
  - rewrite findAll_where.
    destruct (find_rows
                (scope_where clientId ROLE.CLIENT None None None None)
                listing_relations s) as (l' & Hrun' & Hrows').
    destruct (find_rows (Where.set_clientId (Some clientId) Where.empty)
                [R_mechanic; R_vehicle] s) as (l0 & Hrun0 & Hrows).
    rewrite Hrun in Hrun0. injection Hrun0 as <-.
    exists l'. split; [done|]. by rewrite Hrows', Hrows.
Qed.

(** X10: [getAppointmentsByMechanic] returns exactly the stored
    appointments assigned to that mechanic, each once, with the client and
    the vehicle joined (mechanic and schedule are not), ordered by date and
    then hour; they are the same rows, in the same order, that [findAll]
    gives that mechanic without filters. *)
Theorem getAppointmentsByMechanic_lists_assigned (s : State)
    (mechanicId : Z) :
  ∃ l, getAppointmentsByMechanic mechanicId s = (Returned l, s)
    ∧ (∀ a, a ∈ l ↔
         ∃ id c, appointments s !! id = Some c
                 ∧ Appointment.mechanicId c = mechanicId
                 ∧ a = Appointment.mk (Some id) c
                         (users s !! Appointment.clientId c) None
                         (vehicles s !! Appointment.vehicleId c) None)
    ∧ NoDup (Appointment.id <$> l)
    ∧ StronglySorted by_date_then_hour l
    ∧ ∃ l', findAll mechanicId ROLE.MECHANIC None None None None s
            = (Returned l', s)
            ∧ row_of <$> l' = row_of <$> l.
Proof.
  unfold getAppointmentsByMechanic.
  destruct (find_returns (Where.set_mechanicId (Some mechanicId) Where.empty)
              [R_client; R_vehicle] s) as (l & Hrun & Hin & Hsorted).
  exists l. split_and!; try done.
  - intros a. rewrite Hin. by setoid_rewrite matches_mechanicId.
  - by apply (find_once _ _ _ _ Hrun).
  - rewrite findAll_where.
    destruct (find_rows
                (scope_where mechanicId ROLE.MECHANIC None None None None)
                listing_relations s) as (l' & Hrun' & Hrows').
    destruct (find_rows (Where.set_mechanicId (Some mechanicId) Where.empty)
                [R_client; R_vehicle] s) as (l0 & Hrun0 & Hrows).
    rewrite Hrun in Hrun0. injection Hrun0 as <-.
    exists l'. split; [done|]. by rewrite Hrows', Hrows.
Qed.

(** ** UsersService *)

Lemma findByIdOrThrow_run (id : Z) (s : State) :
  usersService_findByIdOrThrow id s
  = match users s !! id with
    | Some u => (Returned u, s)
    | None => (Thrown (NotFoundException
                         ("User with ID " +:+ pretty id +:+ " not found")), s)
    end.
Proof.
  destruct (users s !! id) eqn:Hu.
  - by apply findByIdOrThrow_found.
  - by apply findByIdOrThrow_missing.
Qed.

(** X11: [updateProfile] throws NotFound for an unknown id and BadRequest
    when the new name is the current one, writing nothing.  Otherwise it
    returns the projection of the saved user: the name is the new one if
    that is a non-empty string and the old one if the request carries no
    name or an empty one; id and role are as before, and no other user is
    written. *)
Theorem updateProfile_renames {SafeUser : Type}
    (toSafeUser : User.t → SafeUser) (s : State) (id : Z)
    (dto : UpdateUserDto.t) :
  users_keyed s →
  let r := usersService_updateProfile toSafeUser id dto s in
  match users s !! id with
  | None => ∃ msg, r = (Thrown (NotFoundException msg), s)
  | Some u =>
    if decide (UpdateUserDto.name dto = Some (User.name u))
    then r = (Thrown (BadRequestException
                        "New name must be different from the current one"), s)
    else
      let name' :=
        match UpdateUserDto.name dto with
        | Some n => if decide (n = "") then User.name u else n
        | None => User.name u
        end in
      let u' := User.mk id name' (User.role u) in
      r.1 = Returned (toSafeUser u')
      ∧ users r.2 = <[id := u']> (users s)
      ∧ appointments r.2 = appointments s
      ∧ schedules r.2 = schedules s
      ∧ vehicles r.2 = vehicles s
  end.
Proof.
  intros Hkeyed. cbv zeta. unfold usersService_updateProfile.
  destruct (users s !! id) as [u|] eqn:Hu;
    [rewrite (bind_returned _ _ _ _ _ (findByIdOrThrow_found _ _ _ Hu))
    |rewrite (bind_thrown _ _ _ _ _ (findByIdOrThrow_missing _ _ Hu)); eauto].
  apply Hkeyed in Hu as Hid. cbn in Hid.
  destruct (decide (UpdateUserDto.name dto = Some (User.name u))) as [He|Hne].
  { by rewrite bool_decide_eq_true_2 by done. }
  rewrite bool_decide_eq_false_2 by done.
  unfold bind, usersService_save, usersRepository_save, ret.
  destruct u as [uid uname urole]. cbn [User.id] in Hid. subst uid.
  destruct (UpdateUserDto.name dto) as [n|]; [|done].
  destruct (decide (n = "")) as [->|Hn]; [done|].
  by rewrite (proj2 (truthy_string_Some n) Hn).
Qed.

Lemma sample_users_keyed : users_keyed Sample.garage.
Proof. apply (bool_decide_unpack _). by vm_compute. Qed.

Lemma updateProfile_renames_witness :
  users_keyed Sample.garage
  ∧ let r := usersService_updateProfile (λ u, u) 10
               (UpdateUserDto.mk (Some "Ana María")) Sample.garage in
    r.1 = Returned (User.mk 10 "Ana María" ROLE.CLIENT)
    ∧ users r.2
      = <[10 := User.mk 10 "Ana María" ROLE.CLIENT]> (users Sample.garage)
    ∧ appointments r.2 = appointments Sample.garage
    ∧ schedules r.2 = schedules Sample.garage
    ∧ vehicles r.2 = vehicles Sample.garage.
Proof.
  split; [apply sample_users_keyed|].
  exact (updateProfile_renames (λ u, u) Sample.garage 10
           (UpdateUserDto.mk (Some "Ana María")) sample_users_keyed).
Defined.

Lemma updateUserRole_run {SafeUser : Type} (toSafeUser : User.t → SafeUser)
    (s : State) (id : Z) (role : string) (u : User.t) :
  users s !! id = Some u →
  usersService_updateUserRole toSafeUser id role s
  = (Returned (toSafeUser (set_role role u)),
     (usersRepository_save (set_role role u) s).2).
Proof.
  intros Hu. unfold usersService_updateUserRole.
  by rewrite (bind_returned _ _ _ _ _ (findByIdOrThrow_found _ _ _ Hu)).
Qed.

(** X12: changing a user's role decides whether the user can be booked.
    After [updateUserRole] of an existing user the stored role is the
    given one; if that is not [mechanic], every later booking that names
    the user as mechanic throws the validation error and writes nothing,
    while the appointments already stored stay as they are.
    [promoteToAdmin] leaves the same store as [updateUserRole] with the
    admin role. *)
Theorem role_change_decides_bookability {SafeUser : Type}
    (toSafeUser : User.t → SafeUser) (s : State) (id : Z) (role : string) :
  users_keyed s →
  is_Some (users s !! id) →
  let s1 := (usersService_updateUserRole toSafeUser id role s).2 in
  User.role <$> users s1 !! id = Some role
  ∧ appointments s1 = appointments s
  ∧ (role ≠ ROLE.MECHANIC →
     ∀ clientId dto,
       CreateAppointmentDto.mechanicId dto = id →
       createAppointment clientId dto s1
       = (Thrown (BadRequestException
                    "El usuario seleccionado no es un mecánico"), s1))
  ∧ (usersService_promoteToAdmin id s).2
    = (usersService_updateUserRole toSafeUser id ROLE.ADMIN s).2.
Proof.
  intros Hkeyed [u Hu]. cbv zeta.
  apply Hkeyed in Hu as Hid. cbn in Hid.
  rewrite !(updateUserRole_run _ _ _ _ _ Hu).
  cbn [snd usersRepository_save set_role User.id users appointments].
  rewrite Hid. split_and!.
  - by rewrite lookup_insert_eq.
  - done.
  - intros Hrole clientId dto Hm. apply createAppointment_failure.
    unfold booking_failure. cbn [users]. rewrite Hm, lookup_insert_eq.
    cbn [User.role]. by rewrite bool_decide_eq_true_2.
  - unfold usersService_promoteToAdmin.
    rewrite (bind_returned _ _ _ _ _ (findByIdOrThrow_found _ _ _ Hu)).
    unfold bind, usersService_save, usersRepository_save, ret. cbn.
    by rewrite Hid.
Qed.

Lemma role_change_decides_bookability_witness :
  users_keyed Sample.garage
  ∧ is_Some (users Sample.garage !! 20)
  ∧ let s1 := (usersService_updateUserRole (λ u, u) 20 ROLE.CLIENT
                 Sample.garage).2 in
    createAppointment 10 Sample.booking s1
    = (Thrown (BadRequestException
                 "El usuario seleccionado no es un mecánico"), s1).
Proof.
  assert (is_Some (users Sample.garage !! 20)) as Hsome
    by (exists Sample.mario; reflexivity).
  split_and!; [apply sample_users_keyed|done|].
  apply (proj1 (proj2 (proj2
    (role_change_decides_bookability (λ u, u) Sample.garage 20 ROLE.CLIENT
       sample_users_keyed Hsome)))); [discriminate|reflexivity].
Defined.

(** X13: the user listings.  [findAll] returns the projections of
    exactly the stored users when no role filter is given (or an empty
    one), and of exactly those with the given role otherwise; [findAdmins]
    returns the users [findAll] shows for the admin role. *)
Theorem usersService_findAll_filters {SafeUser : Type}
    (toSafeUser : User.t → SafeUser) (s : State)
    (roleFilter : option string) :
  ∃ l, usersService_findAll toSafeUser roleFilter s
       = (Returned (toSafeUser <$> l), s)
    ∧ (∀ u, u ∈ l ↔
         (∃ id, users s !! id = Some u)
         ∧ ∀ r, roleFilter = Some r → r ≠ "" → User.role u = r)
    ∧ (roleFilter = Some ROLE.ADMIN →
       usersService_findAdmins s = (Returned l, s)).
Proof.
  eexists. split; [reflexivity|]. split.
  - intros u. rewrite list_elem_of_filter, list_elem_of_fmap.
    rewrite holds_truthy_string. split.
    + intros [Hrole ([id u'] & -> & Hin%elem_of_map_to_list)]. eauto.
    + intros [[id Hu] Hrole]. split; [done|]. exists (id, u).
      split; [done|]. by apply elem_of_map_to_list.
  - by intros ->.
Qed.

(** ** VehicleOwnerGuard *)


(** ** The Redis provider *)





(** ** Decisions are final *)

(** X17: a decided appointment cannot be decided again.  For an
    appointment that is stored as [accepted] or [rejected], each of
    [acceptAppointment], [rejectAppointment], [updateAppointment] and
    [updateAppointmentStatus] throws, whoever calls it and whatever the
    request, and leaves the store exactly as it was. *)
Theorem decided_is_final (s : State) (id : Z) (c : Appointment.Columns) :
  appointments s !! id = Some c →
  Appointment.status c ≠ PENDING →
  (∀ mechanicId, ∃ e, acceptAppointment id mechanicId s = (Thrown e, s))
  ∧ (∀ mechanicId dto,
       ∃ e, rejectAppointment id mechanicId dto s = (Thrown e, s))
  ∧ (∀ userId userRole dto,
       ∃ e, updateAppointment id userId userRole dto s = (Thrown e, s))
  ∧ (∀ mechanicId dto,
       ∃ e, updateAppointmentStatus id mechanicId dto s = (Thrown e, s)).
Proof.
  intros Hc Hst. split_and!.
  - intros m. rewrite acceptAppointment_run, Hc.
    case_bool_decide; [eauto|]. rewrite bool_decide_eq_true_2 by done. eauto.
  - intros m dto. rewrite rejectAppointment_run, Hc.
    case_bool_decide; [eauto|]. rewrite bool_decide_eq_true_2 by done. eauto.
  - intros u role dto. unfold updateAppointment.
    rewrite (bind_returned _ _ _ _ _ (findOne_at _ _ _)), Hc.
    cbn [fmap option_fmap option_map hydrate Appointment.columns].
    rewrite (bool_decide_eq_true_2 (Appointment.status c ≠ PENDING)) by done.
    split_guards; unfold throw; eauto.
  - intros m dto. unfold updateAppointmentStatus.
    rewrite (bind_returned _ _ _ _ _ (findOne_at _ _ _)), Hc.
    cbn [fmap option_fmap option_map hydrate Appointment.columns].
    rewrite (bool_decide_eq_true_2 (Appointment.status c ≠ PENDING)) by done.
    split_guards; unfold throw; eauto.
Qed.

Lemma decided_is_final_witness :
  let s := serve [CreateAppointment 10 Sample.booking;
                  AcceptAppointment 1 20] Sample.garage in
  let c := decided_columns ACCEPTED None (booked_columns 10 Sample.booking) in
  appointments s !! 1 = Some c
  ∧ Appointment.status c ≠ PENDING
  ∧ ∃ e, rejectAppointment 1 20 (RejectAppointmentDto.mk "tarde") s
         = (Thrown e, s).
Proof.
  cbv zeta.
  assert (appointments
            (serve [CreateAppointment 10 Sample.booking;
                    AcceptAppointment 1 20] Sample.garage) !! 1
          = Some (decided_columns ACCEPTED None
                    (booked_columns 10 Sample.booking))) as Hc
    by (vm_compute; reflexivity).
  assert (Appointment.status
            (decided_columns ACCEPTED None (booked_columns 10 Sample.booking))
          ≠ PENDING) as Hst by discriminate.
  split_and!; [done..|].
  exact (proj1 (proj2 (decided_is_final _ 1 _ Hc Hst)) 20
           (RejectAppointmentDto.mk "tarde")).
Defined.

(** ** A slot that is gone stays gone *)

Lemma touches_slot_gone (s s' : State) (sid : Z) (h : string) :
  touches s s' → slot_gone s sid h → slot_gone s' sid h.
Proof.
  intros Ht [Hoff Hheld].
  assert (∀ id c, appointments s !! id = Some c →
            Appointment.status c ≠ REJECTED →
            release s s' (Appointment.scheduleId c) (Appointment.hour c) →
            ∀ sch, schedules s' !! sid = Some sch →
                   h ∉ Schedule.availableHours sch) as Hrelease.
  { intros id c Hc Hact [[_ Hs]|(sch0 & sch' & Hs0 & Hs' & Hmem)] sch Hsch.
    { rewrite Hs in Hsch. by apply Hoff. }
    rewrite Hs' in Hsch.
    destruct (decide (Appointment.scheduleId c = sid)) as [Heq|Hne].
    - rewrite Heq, lookup_insert_eq in Hsch. injection Hsch as <-.
      rewrite Hmem. intros [Hin|Hh].
      + apply (Hoff sch0); [by rewrite <- Heq|done].
      + by apply (Hheld id c).
    - rewrite lookup_insert_ne in Hsch by done. by apply Hoff. }
  destruct Ht as [Ha Hs|clientId dto m v cl sch sch' Hb Ha Hs Hmem
                 |id c c' Hc Hp Hsame Ha Hs|id c c' Hc Hp Hsame Hrej Ha Hrel
                 |id c Hc Hact Ha Hrel].
  - unfold slot_gone. by rewrite Ha, Hs.
  - destruct Hb as [_ _ _ _ _ Hsch Hhour]. split.
    + intros sch0 Hs0. rewrite Hs in Hs0.
      destruct (decide (CreateAppointmentDto.scheduleId dto = sid))
        as [Heq|Hne].
      * rewrite Heq, lookup_insert_eq in Hs0. injection Hs0 as <-.
        rewrite Hmem. intros [Hin _]. apply (Hoff sch); [|done].
        by rewrite <- Heq.
      * rewrite lookup_insert_ne in Hs0 by done. by apply Hoff.
    + intros i ci Hi Hai [Hsid Hh]. rewrite Ha in Hi.
      destruct (decide (nextAppointmentId s = i)) as [<-|Hne].
      * rewrite lookup_insert_eq in Hi. injection Hi as <-.
        cbn in Hsid, Hh. apply (Hoff sch); [by rewrite <- Hsid|].
        by rewrite <- Hh.
      * rewrite lookup_insert_ne in Hi by done. by apply (Hheld i ci).
  - split; [by rewrite Hs|].
    intros i ci Hi Hai [Hsid Hh]. rewrite Ha in Hi.
    destruct Hsame as (_ & _ & _ & Hsid' & Hh' & _).
    destruct (decide (id = i)) as [<-|Hne].
    + rewrite lookup_insert_eq in Hi. injection Hi as <-.
      apply (Hheld id c); [done|by rewrite Hp|]. split; congruence.
    + rewrite lookup_insert_ne in Hi by done. by apply (Hheld i ci).
  - split.
    + apply (Hrelease id c); [done|by rewrite Hp|done].
    + intros i ci Hi Hai. rewrite Ha in Hi.
      destruct (decide (id = i)) as [<-|Hne].
      * rewrite lookup_insert_eq in Hi. injection Hi as <-. done.
      * rewrite lookup_insert_ne in Hi by done. by apply (Hheld i ci).
  - split.
    + by apply (Hrelease id c).
    + intros i ci Hi Hai. rewrite Ha in Hi.
      destruct (decide (id = i)) as [<-|Hne].
      * by rewrite lookup_delete_eq in Hi.
      * rewrite lookup_delete_ne in Hi by done. by apply (Hheld i ci).
Qed.

Lemma serve_slot_gone (history : list Request) (s : State) (sid : Z)
    (h : string) :
  slot_gone s sid h → slot_gone (serve history s) sid h.
Proof.
  intros Hgone.
  induction history as [|req history IH] using rev_ind; [done|].
  rewrite serve_snoc. eapply touches_slot_gone; [apply handle_touches|done].
Qed.

Lemma slot_gone_unbookable (s : State) (clientId : Z)
    (dto : CreateAppointmentDto.t) :
  slot_gone s (CreateAppointmentDto.scheduleId dto)
            (CreateAppointmentDto.hour dto) →
  ∃ e, createAppointment clientId dto s = (Thrown e, s).
Proof.
  intros [Hoff _].
  destruct (booking_failure s clientId dto) as [e|] eqn:Hf.
  { exists e. by apply createAppointment_failure. }
  destruct (booking_failure_None _ _ _ Hf)
    as (m & v & c & sch & [_ _ _ _ _ Hs Hh]).
  by destruct (Hoff sch Hs).
Qed.

(** X18: a slot rejected through [updateAppointment] is lost.  In a store
    where every slot is held once, after [updateAppointment] has returned
    from setting a pending appointment to [rejected], no sequence of
    service calls brings its hour back: after any such sequence, every
    booking of that hour of that schedule throws and writes nothing.
    ([rejectAppointment] does give the hour back.) *)
Theorem updateAppointment_rejection_loses_slot (s s1 : State)
    (id userId : Z) (userRole reason : string) (c : Appointment.Columns)
    (a : Appointment.t) :
  slots_held_once s →
  appointments s !! id = Some c →
  updateAppointment id userId userRole
    (UpdateAppointmentDto.mk (Some REJECTED) (Some reason)) s
  = (Returned a, s1) →
  ∀ history clientId dto,
    CreateAppointmentDto.scheduleId dto = Appointment.scheduleId c →
    CreateAppointmentDto.hour dto = Appointment.hour c →
    ∃ e, createAppointment clientId dto (serve history s1)
         = (Thrown e, serve history s1).
Proof.
  intros [I1 I2] Hc Hrun history clientId dto Hsid Hh.
  apply slot_gone_unbookable, serve_slot_gone. rewrite Hsid, Hh.
  revert Hrun. unfold updateAppointment.
  rewrite (bind_returned _ _ _ _ _ (findOne_at _ _ _)), Hc.
  cbn [fmap option_fmap option_map hydrate Appointment.columns].
  split_guards; try done.
  match goal with H : bool_decide (_ ≠ PENDING) = false |- _ =>
    apply pending_of_guard in H; rename H into Hp end.
  unfold apply_update.
  cbn [UpdateAppointmentDto.status UpdateAppointmentDto.rejectionReason].
  split_guards; try done.
  destruct (truthy_string (Some reason));
    unfold appointmentRepository_save; cbn; intros [= _ <-]; cbn.
  all: split; cbn.
  all: try (intros sch Hs; apply (I1 id c sch); [done|by rewrite Hp|done]).
  all: intros i ci Hi Hai [Hs' Hh'];
    destruct (decide (id = i)) as [<-|Hne];
    [rewrite lookup_insert_eq in Hi; injection Hi as <-; done
    |rewrite lookup_insert_ne in Hi by done;
     apply Hne; symmetry;
     apply (I2 i id ci c); [done|done|done|by rewrite Hp|done|done]].
Qed.

Lemma sample_booked_slots : slots_held_once Sample.booked.
Proof.
  change Sample.booked
    with (handle (CreateAppointment 10 Sample.booking) Sample.garage).
  apply (touches_slots Sample.garage);
    [apply map_Forall_empty|apply handle_touches|].
  by apply no_appointments_slots.
Qed.

Lemma updateAppointment_rejection_loses_slot_witness :
  let patched :=
    (updateAppointment 1 20 ROLE.MECHANIC
       (UpdateAppointmentDto.mk (Some REJECTED) (Some "no disponible"))
       Sample.booked).2 in
  let later := serve [GetAppointmentById 1; DeleteAppointment 1 10] patched in
  slots_held_once Sample.booked
  ∧ appointments Sample.booked !! 1 = Some (booked_columns 10 Sample.booking)
  ∧ ∃ e, createAppointment 10 Sample.booking later = (Thrown e, later).
Proof.
  cbv zeta. split_and!; [apply sample_booked_slots|reflexivity|].
  eapply (updateAppointment_rejection_loses_slot Sample.booked _ 1 20
            ROLE.MECHANIC "no disponible" (booked_columns 10 Sample.booking)
            _ sample_booked_slots eq_refl);
    [vm_compute; reflexivity|reflexivity..].
Defined.
